(** * XSBA: IFC-to-fragments conversion orchestration

    A shallow embedding of the Python sources

      - [F16_CO_FLD_ConvertIfc_Fragments_BYT.py]
        ([FragmentsBYTEAHandler], [ProjectIfcConverter]),
      - [backend/subprocess_converter.py] ([XFRGSubprocessConverter]),
      - [backend/app.py] (the tier selection of [convert_ifc] and
        [convert_ifc_subprocess])

    Python code that reads or writes the machine (file system, databases,
    child processes, clock, logger, the converter's own [stats] dict) is
    written in a state-and-exception monad [Py]; a raised exception keeps
    the state reached so far, as in Python.  Python floats are modelled by
    rationals: every property below reads a float only through a
    comparison with a constant or a division by [1024 * 1024], both of
    which are exact or monotone on floats.

    Part I is the program, Part II the definitions the properties are
    stated with, together with sample machines, and Part III the
    properties: a weakest-precondition calculus for [Py], one
    specification per function, and the theorems on top of them. *)

From stdpp Require Import gmap strings list sorting.
From Stdlib Require Import ZArith QArith Lia Ascii String OrderedTypeEx
  DecimalString Qround.
From Stdlib.Strings Require Byte.

Local Open Scope string_scope.
Local Open Scope list_scope.
Local Open Scope Z_scope.

(** ** Part I: the program *)

(** *** Python values *)

Abbreviation bytes := (list Byte.byte).

Definition nl : string := String "010"%char "".

(** [b'...'] literals. *)
Definition b (s : string) : bytes := list_byte_of_string s.

(** [len(x)] as a Python int. *)
Definition len {A} (l : list A) : Z := Z.of_nat (List.length l).

(** [data[:n]]. *)
Definition slice_to {A} (n : nat) (l : list A) : list A := take n l.

(** [pathlib.Path], reduced to what the code uses: the parent directory
    and the final component. *)
Record path := mkPath { p_parent : string; p_name : string }.

#[global] Instance path_eq_dec : EqDecision path.
Proof. solve_decision. Defined.

#[global] Instance path_countable : Countable path.
Proof.
  refine (inj_countable' (fun p => (p_parent p, p_name p))
                         (fun t => mkPath t.1 t.2) _).
  by intros [].
Defined.

(** [dir / name]. *)
Definition joinpath (dir : string) (name : string) : path := mkPath dir name.

(** [str(path)]: the parent ["."] of a bare name is not written. *)
Definition str_path (p : path) : string :=
  if String.eqb (p_parent p) "." then p_name p
  else p_parent p +:+ "/" +:+ p_name p.

(** [Path(s)] on a POSIX path without redundant separators: split at the
    last ['/']; a bare name has parent ["."]. *)
Fixpoint split_path (s : string) (dir : option string) (cur : string) : path :=
  match s with
  | EmptyString => mkPath (default "." dir) cur
  | String c s' =>
      if Ascii.eqb c "/"%char
      then split_path s' (Some (match dir with
                                | None => cur
                                | Some d => d +:+ "/" +:+ cur
                                end)) ""
      else split_path s' dir (cur +:+ String c "")
  end.

Definition Path (s : string) : path := split_path s None "".

(** Index of the last ['.'] of a name, if any. *)
Fixpoint rfind_dot (s : string) (i : nat) (found : option nat) : option nat :=
  match s with
  | EmptyString => found
  | String c s' =>
      rfind_dot s' (S i) (if Ascii.eqb c "."%char then Some i else found)
  end.

(** [Path.stem]: the name without its last suffix; a leading or a trailing
    dot starts no suffix. *)
Definition stem (p : path) : string :=
  let n := p_name p in
  match rfind_dot n 0 None with
  | Some i =>
      if ((0 <? i) && (S i <? String.length n))%nat
      then substring 0 i n else n
  | None => n
  end.

(** [s.endswith(suf)]. *)
Definition endswith (s suf : string) : bool :=
  ((String.length suf <=? String.length s)%nat
   && String.eqb (substring (String.length s - String.length suf)
                            (String.length suf) s) suf).

(** [str(n)] on an int. *)
Definition str_Z (z : Z) : string := NilZero.string_of_int (Z.to_int z).

(** [s.lower()] on ASCII letters. *)
Definition ascii_lower (c : ascii) : ascii :=
  let n := nat_of_ascii c in
  if ((65 <=? n) && (n <=? 90))%nat then ascii_of_nat (n + 32) else c.

Fixpoint lower (s : string) : string :=
  match s with
  | EmptyString => EmptyString
  | String c s' => String (ascii_lower c) (lower s')
  end.

(** The exceptions the code can meet; all are subclasses of [Exception]. *)
Inductive exn :=
| TimeoutExpired (timeout : Z)
| OSError (msg : string)
| DatabaseError (msg : string)
| TypeError (msg : string)
| ZeroDivisionError
| AttributeError (msg : string)
| Exception (msg : string).

(** *** The machine *)

Record File := mkFile { f_data : bytes; f_readable : bool }.

(** One row of [t5_va.F1600_CO_Fragments_bytea]. *)
Record ConversionMetadata := mkMeta {
  conversion_time_seconds : Q;
  input_size_mb : Q;
  output_size_mb : Q;
  compression_ratio_percent : Q;
  ifc_source_path : string;
  converter_version : string;
  project_name_md : string;
  conversion_timestamp : Q;
  note : option string
}.

Record Row := mkRow {
  row_id : Z;
  filename : string;
  file_hash : string;
  fragment_data : bytes;
  file_size_bytes : Z;
  ifc_source_file : string;
  conversion_metadata : ConversionMetadata
}.

(** A PostgreSQL database holding the fragments table; [db_online = false]
    makes [psycopg2.connect] raise. *)
Record Database := mkDb {
  db_online : bool;
  db_rows : list Row;
  db_next_id : Z
}.

(** What a child process does when launched on a file system: it may fail
    to start, it runs for [pr_duration] seconds, leaves the file system as
    [pr_fs] and exits with [pr_returncode]. *)
Record ProcRun := mkProcRun {
  pr_launch_error : option string;
  pr_duration : Q;
  pr_returncode : Z;
  pr_stdout : string;
  pr_stderr : string;
  pr_fs : gmap path File
}.

(** The result dict of [convert_single_file]. *)
Record ResultStats := mkResultStats {
  inputSizeMB : Q;
  outputSizeMB : Q;
  compressionRatio : Q
}.

Record ConvResult := mkResult {
  r_file : string;
  r_status : string;
  r_message : string;
  r_conversion_time : Q;
  r_db_stored : bool;
  r_db_stored_secondary : bool;
  r_stats : option ResultStats
}.

(** [ProjectIfcConverter.stats]. *)
Record Stats := mkStats {
  total_files : Z;
  successful : Z;
  failed : Z;
  skipped : Z;
  db_stored : Z;
  db_failed : Z;
  db_stored_secondary : Z;
  db_failed_secondary : Z;
  start_time : option Q;
  end_time : option Q;
  total_time : Q;
  results : list ConvResult
}.

(** The per-sink mark of one line of the detailed results: nothing
    printed, stored, failed, or not attempted. *)
Inductive SummaryMark := MarkNone | MarkOk | MarkFail | MarkNotAttempted.

(** The log records and external calls that the properties read.  Records
    that only decorate the output are not kept. *)
Inductive event :=
| EvLaunch (cmd : list string) (timeout : option Z)
| EvSelect (db : string) (hash : string)
| EvInsert (db : string) (hash : string)
| LogAlreadyExists (name : string)
| LogStored (name : string) (id : Z)
| LogStoreError (name : string) (e : exn)
| LogStoringPrimary (name : string)
| LogPrimaryStored
| LogPrimaryFailed
| LogStoringSecondary (name : string)
| LogSecondaryStored
| LogSecondaryFailed
| LogSkippedSecondary (name : string)
| LogConverted (name : string)
| LogTimedOut (name : string)
| LogConverterFailed (name : string) (e : exn)
| LogMockCreated (name : string)
| LogMockCompleted (name : string)
| LogMockFailed (name : string) (e : exn)
| LogNoFiles
| LogSummaryLine (file : string) (db1 db2 : SummaryMark)
| LogReportSaved (report_file : path)
| LogCouldNotSaveReport (e : exn).

(** The machine.  [st_fs] holds the regular files and [st_dirs] the
    directories; [st_links] holds the symbolic links, and a link at whose
    path there is neither a file nor a directory is dangling.
    [st_casefold] says that paths are Windows paths: [glob] matches names,
    and [Path] objects are compared and hashed, without regard to case. *)
Record State := mkState {
  st_fs : gmap path File;
  st_dirs : gset string;
  st_links : gset path;
  st_readonly : bool;
  st_casefold : bool;
  st_dbs : gmap string Database;
  st_clock : Q;
  st_proc : list string -> gmap path File -> ProcRun;
  st_trace : list event;
  st_stats : Stats
}.

Definition set_fs (f : gmap path File -> gmap path File) (s : State) : State :=
  mkState (f (st_fs s)) (st_dirs s) (st_links s) (st_readonly s) (st_casefold s) (st_dbs s)
          (st_clock s) (st_proc s) (st_trace s) (st_stats s).
Definition set_dirs (f : gset string -> gset string) (s : State) : State :=
  mkState (st_fs s) (f (st_dirs s)) (st_links s) (st_readonly s) (st_casefold s) (st_dbs s)
          (st_clock s) (st_proc s) (st_trace s) (st_stats s).
Definition set_dbs (f : gmap string Database -> gmap string Database)
    (s : State) : State :=
  mkState (st_fs s) (st_dirs s) (st_links s) (st_readonly s) (st_casefold s) (f (st_dbs s))
          (st_clock s) (st_proc s) (st_trace s) (st_stats s).
Definition set_clock (f : Q -> Q) (s : State) : State :=
  mkState (st_fs s) (st_dirs s) (st_links s) (st_readonly s) (st_casefold s) (st_dbs s)
          (f (st_clock s)) (st_proc s) (st_trace s) (st_stats s).
Definition set_trace (f : list event -> list event) (s : State) : State :=
  mkState (st_fs s) (st_dirs s) (st_links s) (st_readonly s) (st_casefold s) (st_dbs s)
          (st_clock s) (st_proc s) (f (st_trace s)) (st_stats s).
Definition set_stats (f : Stats -> Stats) (s : State) : State :=
  mkState (st_fs s) (st_dirs s) (st_links s) (st_readonly s) (st_casefold s) (st_dbs s)
          (st_clock s) (st_proc s) (st_trace s) (f (st_stats s)).

(** *** The monad of Python code *)

Definition Py (A : Type) : Type := State -> (exn + A) * State.

Definition ret {A} (a : A) : Py A := fun s => (inr a, s).

Definition bind {A B} (m : Py A) (k : A -> Py B) : Py B :=
  fun s => match m s with
           | (inr a, s') => k a s'
           | (inl e, s') => (inl e, s')
           end.

Definition raise {A} (e : exn) : Py A := fun s => (inl e, s).

(** [try: m  except Exception as e: h e]. *)
Definition try_except {A} (m : Py A) (h : exn -> Py A) : Py A :=
  fun s => match m s with
           | (inl e, s') => h e s'
           | r => r
           end.

Definition gets {A} (f : State -> A) : Py A := fun s => (inr (f s), s).
Definition modify (f : State -> State) : Py unit := fun s => (inr tt, f s).
Definition emit (e : event) : Py unit := modify (set_trace (fun t => t ++ [e])).

Declare Scope py_scope.
Delimit Scope py_scope with py.
Notation "x <- m ;; k" := (bind m (fun x => k))
  (at level 100, m at next level, right associativity) : py_scope.
Notation "m ;;; k" := (bind m (fun _ => k))
  (at level 100, right associativity) : py_scope.
Local Open Scope py_scope.

Definition when (c : bool) (m : Py unit) : Py unit := if c then m else ret tt.

(** *** Library calls *)

(** [time.time()] and [datetime.now()]. *)
Definition time_time : Py Q := gets st_clock.

(** [path.exists()] where the converter and the web backend ask for a
    file they read or a child writes: whether the file is there. *)
Definition exists_ (p : path) : Py bool :=
  gets (fun s => bool_decide (is_Some (st_fs s !! p))).

(** The directories, as the paths [glob] and [stat] meet them. *)
Definition dir_entries (s : State) : list path :=
  Path <$> elements (st_dirs s).

Definition is_dir (p : path) (s : State) : bool :=
  bool_decide (p ∈ dir_entries s).

(** The parts of a path string between its separators. *)
Fixpoint components (s : string) (cur : string) : list string :=
  match s with
  | EmptyString => [cur]
  | String c s' =>
      if Ascii.eqb c "/"%char then cur :: components s' ""
      else components s' (cur +:+ String c "")
  end.

(** ENAMETOOLONG: a component of more than 255 bytes, or a path of more
    than 4095. *)
Definition name_too_long (s : string) : bool :=
  (4095 <? String.length s)%nat
  || existsb (fun c => (255 <? String.length c)%nat) (components s "").

(** [Path.exists()] as [pathlib] defines it: [stat()] is called; a missing
    entry and a dangling link give [False], a file and a directory give
    [True], and an error other than ENOENT, ENOTDIR, EBADF or ELOOP is
    raised, such as ENAMETOOLONG. *)
Definition path_exists (p : path) : Py bool :=
  fun s => if name_too_long (str_path p)
           then (inl (OSError "File name too long"), s)
           else (inr (bool_decide (is_Some (st_fs s !! p)) || is_dir p s), s).

(** [path.stat().st_size] of a path that may be a directory.  The size of
    a directory is the file system's: the model takes 4096 bytes, and no
    property depends on the value. *)
Definition dir_st_size : Z := 4096.

Definition entry_stat_size (p : path) : Py Z :=
  fun s => match st_fs s !! p with
           | Some f => (inr (len (f_data f)), s)
           | None => if is_dir p s then (inr dir_st_size, s)
                     else (inl (OSError "No such file or directory"), s)
           end.

Arguments dir_entries : simpl never.
Arguments is_dir : simpl never.
Arguments name_too_long : simpl never.
Arguments path_exists : simpl never.
Arguments entry_stat_size : simpl never.

(** [path.stat().st_size]. *)
Definition stat_size (p : path) : Py Z :=
  fun s => match st_fs s !! p with
           | Some f => (inr (len (f_data f)), s)
           | None => (inl (OSError "No such file or directory"), s)
           end.

(** [open(p, 'rb').read()]. *)
Definition read_bytes (p : path) : Py bytes :=
  fun s => match st_fs s !! p with
           | Some f => if f_readable f then (inr (f_data f), s)
                       else (inl (OSError "Permission denied"), s)
           | None => (inl (OSError "No such file or directory"), s)
           end.

(** [open(p, 'wb').write(data)]. *)
Definition write_bytes (p : path) (data : bytes) : Py unit :=
  fun s => if bool_decide (p_parent p ∈ st_dirs s)
           then if st_readonly s
                then (inl (OSError "Read-only file system"), s)
                else (inr tt, set_fs (insert p (mkFile data true)) s)
           else (inl (OSError "No such file or directory"), s).

(** The proper ancestors of a directory, outermost first. *)
Fixpoint ancestors (s : string) (cur : string) : list string :=
  match s with
  | EmptyString => []
  | String c s' =>
      if Ascii.eqb c "/"%char
      then (if String.eqb cur "" then [] else [cur])
           ++ ancestors s' (cur +:+ "/")
      else ancestors s' (cur +:+ String c "")
  end.

(** The directories [mkdir] leaves behind. *)
Definition made_dirs (d : string) : gset string :=
  {[d]} ∪ list_to_set (ancestors d "").

Arguments made_dirs : simpl never.

(** [d.mkdir(parents=True, exist_ok=True)]: nothing to do for a
    directory; FileExistsError when a file has the name, NotADirectoryError
    when a file has the name of an ancestor; otherwise the directory and
    its missing ancestors are made, unless the file system refuses. *)
Definition mkdir (d : string) : Py unit :=
  fun s => if bool_decide (d ∈ st_dirs s) then (inr tt, s)
           else if bool_decide (is_Some (st_fs s !! Path d))
           then (inl (OSError "File exists"), s)
           else if existsb (fun a => bool_decide (is_Some (st_fs s !! Path a)))
                           (ancestors d "")
           then (inl (OSError "Not a directory"), s)
           else if st_readonly s
           then (inl (OSError "Read-only file system"), s)
           else (inr tt, set_dirs (fun ds => made_dirs d ∪ ds) s).

Definition Qltb (x y : Q) : bool := negb (Qle_bool y x).

(** [subprocess.run(cmd, timeout=timeout)]: the child is launched; when it
    outlives the timeout it is killed and [TimeoutExpired] is raised. *)
Record CompletedProcess := mkCompleted {
  returncode : Z;
  stdout : string;
  stderr : string
}.

Definition subprocess_run (cmd : list string) (timeout : option Z)
  : Py CompletedProcess :=
  fun s =>
    let r := st_proc s cmd (st_fs s) in
    let s1 := set_trace (fun t => t ++ [EvLaunch cmd timeout]) s in
    match pr_launch_error r with
    | Some msg => (inl (OSError msg), s1)
    | None =>
        match timeout with
        | Some t =>
            if Qltb (inject_Z t) (pr_duration r)
            then (inl (TimeoutExpired t),
                  set_clock (fun c => c + inject_Z t)%Q
                            (set_fs (fun _ => pr_fs r) s1))
            else (inr (mkCompleted (pr_returncode r) (pr_stdout r)
                                   (pr_stderr r)),
                  set_clock (fun c => c + pr_duration r)%Q
                            (set_fs (fun _ => pr_fs r) s1))
        | None =>
            (inr (mkCompleted (pr_returncode r) (pr_stdout r) (pr_stderr r)),
             set_clock (fun c => c + pr_duration r)%Q
                       (set_fs (fun _ => pr_fs r) s1))
        end
    end.

(** [os.unlink(p)]. *)
Definition unlink (p : path) : Py unit :=
  fun s => match st_fs s !! p with
           | Some _ => if st_readonly s
                       then (inl (OSError "Read-only file system"), s)
                       else (inr tt, set_fs (delete p) s)
           | None => (inl (OSError "No such file or directory"), s)
           end.

(** [str(e)]. *)
Definition str_exn (e : exn) : string :=
  match e with
  | TimeoutExpired t =>
      "Command timed out after " +:+ str_Z t +:+ " seconds"
  | OSError m | DatabaseError m | TypeError m | AttributeError m
  | Exception m => m
  | ZeroDivisionError => "division by zero"
  end.

(** [round(x, 2)]: the nearest hundredth, ties to even. *)
Definition round2 (x : Q) : Q :=
  let y := (x * 100)%Q in
  let f := Qfloor y in
  let r := (y - inject_Z f)%Q in
  let n := if Qltb r (1 # 2) then f
           else if Qltb (1 # 2) r then f + 1
           else if Z.even f then f else f + 1 in
  (inject_Z n / 100)%Q.

(** The values of the JSON-like dicts the backend returns. *)
Inductive pyval :=
| VNone
| VBool (v : bool)
| VInt (v : Z)
| VFloat (v : Q)
| VStr (v : string).

(** [x / y] on floats. *)
Definition truediv (x : option Q) (y : Q) : Py Q :=
  match x with
  | None => raise (TypeError "unsupported operand type(s) for /")
  | Some x => if Qeq_bool y 0 then raise ZeroDivisionError
              else ret (x / y)%Q
  end.

(** [hashlib.sha256], [json.dump(..., default=str)] and
    [datetime.strftime('%Y%m%d_%H%M%S')]: library functions the code calls
    and the model takes as an interface. *)
Record Report := mkReport {
  conversion_summary : Stats;
  env_source_directory : string;
  env_target_directory : string;
  env_script_directory : string;
  env_converter_package : string;
  report_timestamp : Q
}.

Class PyLib := {
  sha256 : Type;
  sha256_new : sha256;
  sha256_update : sha256 -> bytes -> sha256;
  sha256_hexdigest : sha256 -> string;
  json_dump : Report -> bytes;
  strftime : Q -> string
}.

(** *** FragmentsBYTEAHandler *)

Record FragmentsBYTEAHandler := mkHandler { db_config : string }.

Record StorageStats := mkStorageStats {
  total_fragments : Z;
  total_size_bytes : option Z
}.

(** The successive results of [f.read(n)] until [b'']. *)
Fixpoint read_chunks (fuel : nat) (n : nat) (data : bytes) : list bytes :=
  match fuel with
  | O => []
  | S fuel' =>
      match data with
      | [] => []
      | _ => take n data :: read_chunks fuel' n (drop n data)
      end
  end.

Section Handler.
Context `{!PyLib}.

Definition get_connection (self : FragmentsBYTEAHandler) : Py Database :=
  fun s => match st_dbs s !! db_config self with
           | Some db =>
               if db_online db then (inr db, s)
               else (inl (DatabaseError "connection failed"), s)
           | None => (inl (DatabaseError "connection failed"), s)
           end.

(** [hashlib.sha256()] fed with the chunks read, then [hexdigest()]. *)
Definition content_hash (data : bytes) : string :=
  sha256_hexdigest
    (fold_left sha256_update (read_chunks (List.length data) 4096 data)
               sha256_new).

Definition calculate_file_hash (file_path : path) : Py string :=
  data <- read_bytes file_path ;;
  ret (content_hash data).

(** [SELECT id FROM ... WHERE file_hash = %s] followed by [fetchone()]. *)
Definition select_id_by_hash (self : FragmentsBYTEAHandler) (hash : string)
  : Py (option Z) :=
  db <- get_connection self ;;
  emit (EvSelect (db_config self) hash) ;;;
  ret (row_id <$> List.find (fun r => String.eqb (file_hash r) hash)
                            (db_rows db)).

(** [INSERT INTO ... RETURNING id] under the table's constraints:
    [VARCHAR(255)] names, [VARCHAR(64)] and [UNIQUE] hash. *)
Definition insert_fragment (self : FragmentsBYTEAHandler)
    (name hash : string) (data : bytes) (size : Z) (src : string)
    (meta : ConversionMetadata) : Py Z :=
  db <- get_connection self ;;
  emit (EvInsert (db_config self) hash) ;;;
  if ((255 <? String.length name) || (255 <? String.length src)
      || (64 <? String.length hash))%nat
  then raise (DatabaseError "value too long for type character varying")
  else if existsb (fun r => String.eqb (file_hash r) hash) (db_rows db)
  then raise (DatabaseError "duplicate key value violates unique constraint")
  else
    let id := db_next_id db in
    modify (set_dbs (insert (db_config self)
              (mkDb (db_online db)
                    (db_rows db ++ [mkRow id name hash data size src meta])
                    (id + 1)))) ;;;
    ret id.

Definition store_fragment (self : FragmentsBYTEAHandler)
    (fragment_file : path) (ifc_source : string)
    (conversion_metadata : ConversionMetadata) : Py bool :=
  try_except
    (file_hash <- calculate_file_hash fragment_file ;;
     file_size <- stat_size fragment_file ;;
     found <- select_id_by_hash self file_hash ;;
     match found with
     | Some _ =>
         emit (LogAlreadyExists (p_name fragment_file)) ;;;
         ret true
     | None =>
         fragment_data <- read_bytes fragment_file ;;
         fragment_id <- insert_fragment self (p_name fragment_file)
                          file_hash fragment_data file_size ifc_source
                          conversion_metadata ;;
         emit (LogStored (p_name fragment_file) fragment_id) ;;;
         ret true
     end)
    (fun e =>
       emit (LogStoreError (p_name fragment_file) e) ;;;
       ret false).

(** The row count and [SUM(file_size_bytes)]; the sum over no rows is
    [NULL], read back as [None].  An empty dict is [None] here. *)
Definition get_storage_stats (self : FragmentsBYTEAHandler)
  : Py (option StorageStats) :=
  try_except
    (db <- get_connection self ;;
     ret (Some (mkStorageStats
                  (len (db_rows db))
                  (match db_rows db with
                   | [] => None
                   | rows => Some (foldr Z.add 0 (file_size_bytes <$> rows))
                   end))))
    (fun _ => ret None).

(** [FragmentsBYTEAHandler(db_config)]: the constructor connects to make
    sure the schema exists, and raises when it cannot. *)
Definition new_handler (cfg : string) : Py FragmentsBYTEAHandler :=
  let self := mkHandler cfg in
  get_connection self ;;;
  ret self.
End Handler.

(** *** ProjectIfcConverter *)

Record ProjectIfcConverter := mkConverter {
  script_dir : string;
  log_dir : string;
  source_dir : string;
  target_dir : string;
  project_name : string;
  database_enabled : bool;
  db_handler : option FragmentsBYTEAHandler;
  secondary_database_enabled : bool;
  db_handler_secondary : option FragmentsBYTEAHandler;
  converter_package_dir : string;
  portable_converter : path;
  sys_executable : string
}.

(** The initial [self.stats]. *)
Definition init_stats : Stats :=
  mkStats 0 0 0 0 0 0 0 0 None None 0 [].

Definition with_counts (st : Stats)
    (ok ko sk d1 f1 d2 f2 : Z) : Stats :=
  mkStats (total_files st) (successful st + ok) (failed st + ko)
          (skipped st + sk) (db_stored st + d1) (db_failed st + f1)
          (db_stored_secondary st + d2) (db_failed_secondary st + f2)
          (start_time st) (end_time st) (total_time st) (results st).

Definition append_result (r : ConvResult) (st : Stats) : Stats :=
  mkStats (total_files st) (successful st) (failed st) (skipped st)
          (db_stored st) (db_failed st) (db_stored_secondary st)
          (db_failed_secondary st) (start_time st) (end_time st)
          (total_time st) (results st ++ [r]).

Definition set_total_files (n : Z) (st : Stats) : Stats :=
  mkStats n (successful st) (failed st) (skipped st)
          (db_stored st) (db_failed st) (db_stored_secondary st)
          (db_failed_secondary st) (start_time st) (end_time st)
          (total_time st) (results st).

Definition set_start_time (t : Q) (st : Stats) : Stats :=
  mkStats (total_files st) (successful st) (failed st) (skipped st)
          (db_stored st) (db_failed st) (db_stored_secondary st)
          (db_failed_secondary st) (Some t) (end_time st)
          (total_time st) (results st).

Definition set_end_time (t : Q) (st : Stats) : Stats :=
  mkStats (total_files st) (successful st) (failed st) (skipped st)
          (db_stored st) (db_failed st) (db_stored_secondary st)
          (db_failed_secondary st) (start_time st) (Some t)
          (match start_time st with Some t0 => t - t0 | None => 0 end)%Q
          (results st).

(** [path.glob('*' + suffix)] in [dir]; the order is the file system's.
    Every entry whose name matches is listed: files, directories and
    symbolic links, dangling or not. *)
Definition fnmatch_suffix (casefold : bool) (name suffix : string) : bool :=
  if casefold then endswith (lower name) (lower suffix)
  else endswith name suffix.

Definition entries (s : State) : list path :=
  (map_to_list (st_fs s)).*1 ++ dir_entries s ++ elements (st_links s).

Definition glob (dir : string) (suffix : string) : Py (list path) :=
  gets (fun s =>
          List.filter
            (fun p => String.eqb (p_parent p) dir
                      && fnmatch_suffix (st_casefold s) (p_name p) suffix)
            (entries s)).

(** What [Path] objects are compared and hashed by: their parts, in lower
    case for Windows paths. *)
Definition path_key (casefold : bool) (p : path) : path :=
  if casefold then mkPath (lower (p_parent p)) (lower (p_name p)) else p.

(** The order of the keys: by parts, which for the paths of one directory
    is the order of the names, character by character. *)
Definition path_compare (p q : path) : comparison :=
  match String.compare (p_parent p) (p_parent q) with
  | Eq => String.compare (p_name p) (p_name q)
  | c => c
  end.

Definition path_le (p q : path) : Prop := path_compare p q <> Gt.
Definition path_lt (p q : path) : Prop := path_compare p q = Lt.

#[global] Instance path_le_dec : RelDecision path_le.
Proof. intros p q. unfold path_le. solve_decision. Defined.

(** The order of [Path] objects. *)
Definition path_le_on (casefold : bool) (p q : path) : Prop :=
  path_le (path_key casefold p) (path_key casefold q).

#[global] Instance path_le_on_dec casefold : RelDecision (path_le_on casefold).
Proof. intros p q. unfold path_le_on. apply _. Defined.

(** [set(l)], in the order of [l]: of the paths with one key the first is
    kept. *)
Fixpoint set_of (key : path -> path) (seen : list path) (l : list path)
  : list path :=
  match l with
  | [] => []
  | p :: l' =>
      if bool_decide (key p ∈ seen) then set_of key seen l'
      else p :: set_of key (key p :: seen) l'
  end.

(** [sorted(set(l))]. *)
Definition sorted_set (casefold : bool) (l : list path) : list path :=
  merge_sort (path_le_on casefold) (set_of (path_key casefold) [] l).

Fixpoint for_each {A} (l : list A) (body : A -> Py unit) : Py unit :=
  match l with
  | [] => ret tt
  | x :: l' => body x ;;; for_each l' body
  end.

(** [size / (1024 * 1024)]. *)
Definition mb : Q := inject_Z (1024 * 1024).

Section Converter.
Context `{!PyLib}.

Definition find_ifc_files (self : ProjectIfcConverter) : Py (list path) :=
  found1 <- glob (source_dir self) ".ifc" ;;
  found2 <- glob (source_dir self) ".IFC" ;;
  windows <- gets st_casefold ;;
  let ifc_files := sorted_set windows (found1 ++ found2) in
  match ifc_files with
  | [] => ret []
  | _ =>
      for_each ifc_files
        (fun ifc_file =>
           sz <- entry_stat_size ifc_file ;;
           file_size <- truediv (Some (inject_Z sz)) mb ;;
           ret tt) ;;;
      ret ifc_files
  end.

(** [((input - output) / input) * 100 if input > 0 else 0]. *)
Definition compression_ratio (input_size_mb output_size_mb : Q) : Py Q :=
  if Qltb 0 input_size_mb
  then q <- truediv (Some (input_size_mb - output_size_mb)%Q)
                    input_size_mb ;;
       ret (q * 100)%Q
  else ret 0%Q.

Definition call_store (h : option FragmentsBYTEAHandler)
    (output_file : path) (ifc_source : string)
    (conversion_metadata : ConversionMetadata) : Py bool :=
  match h with
  | Some h => store_fragment h output_file ifc_source conversion_metadata
  | None => raise (AttributeError "store_fragment")
  end.

Definition _store_fragment_and_return_result (self : ProjectIfcConverter)
    (ifc_file output_file : path) (conversion_time : Q)
    (conversion_metadata : ConversionMetadata) : Py ConvResult :=
  db_stored_primary <-
    (if database_enabled self
     then
       emit (LogStoringPrimary (p_name output_file)) ;;;
       stored <- call_store (db_handler self) output_file
                   (p_name ifc_file) conversion_metadata ;;
       (if stored : bool
        then modify (set_stats (fun st => with_counts st 0 0 0 1 0 0 0)) ;;;
             emit LogPrimaryStored
        else modify (set_stats (fun st => with_counts st 0 0 0 0 1 0 0)) ;;;
             emit LogPrimaryFailed) ;;;
       ret stored
     else ret false) ;;
  db_stored_secondary <-
    (if secondary_database_enabled self
     then
       can_attempt_secondary <-
         (if database_enabled self
          then if db_stored_primary : bool
               then ret true
               else emit (LogSkippedSecondary (p_name output_file)) ;;;
                    ret false
          else ret true) ;;
       if can_attempt_secondary : bool
       then
         emit (LogStoringSecondary (p_name output_file)) ;;;
         stored <- call_store (db_handler_secondary self) output_file
                     (p_name ifc_file) conversion_metadata ;;
         (if stored : bool
          then modify (set_stats (fun st => with_counts st 0 0 0 0 0 1 0)) ;;;
               emit LogSecondaryStored
          else modify (set_stats (fun st => with_counts st 0 0 0 0 0 0 1)) ;;;
               emit LogSecondaryFailed) ;;;
         ret stored
       else ret false
     else ret false) ;;
  ret (mkResult (p_name ifc_file) "success" "Conversion successful"
                conversion_time db_stored_primary db_stored_secondary
                (Some (mkResultStats
                         (input_size_mb conversion_metadata)
                         (output_size_mb conversion_metadata)
                         (compression_ratio_percent conversion_metadata)))).

Definition _process_successful_conversion (self : ProjectIfcConverter)
    (ifc_file output_file : path) (conversion_time : Q) : Py ConvResult :=
  in_sz <- stat_size ifc_file ;;
  input_size_mb <- truediv (Some (inject_Z in_sz)) mb ;;
  out_sz <- stat_size output_file ;;
  output_size_mb <- truediv (Some (inject_Z out_sz)) mb ;;
  ratio <- compression_ratio input_size_mb output_size_mb ;;
  now <- time_time ;;
  let conversion_metadata :=
    mkMeta conversion_time input_size_mb output_size_mb ratio
           (str_path ifc_file) "portable_ifc_fragments_converter"
           (project_name self) now None in
  _store_fragment_and_return_result self ifc_file output_file
    conversion_time conversion_metadata.

Definition mock_fragment_data (ifc_data : bytes) : bytes :=
  b ("MOCK_FRAGMENT_HEADER" +:+ nl) ++ slice_to 1024 ifc_data
    ++ b (nl +:+ "MOCK_FRAGMENT_FOOTER").

Definition _fallback_mock_conversion (self : ProjectIfcConverter)
    (ifc_file output_file : path) (start_time : Q) : Py ConvResult :=
  emit (LogMockCreated (p_name output_file)) ;;;
  try_except
    (ifc_data <- read_bytes ifc_file ;;
     write_bytes output_file (mock_fragment_data ifc_data) ;;;
     now <- time_time ;;
     let conversion_time := (now - start_time)%Q in
     in_sz <- stat_size ifc_file ;;
     input_size_mb <- truediv (Some (inject_Z in_sz)) mb ;;
     out_sz <- stat_size output_file ;;
     output_size_mb <- truediv (Some (inject_Z out_sz)) mb ;;
     ratio <- compression_ratio input_size_mb output_size_mb ;;
     emit (LogMockCompleted (p_name ifc_file)) ;;;
     stamp <- time_time ;;
     let conversion_metadata :=
       mkMeta conversion_time input_size_mb output_size_mb ratio
              (str_path ifc_file) "mock_converter_fallback"
              (project_name self) stamp
              (Some "Mock conversion used due to portable converter issues")
     in
     _store_fragment_and_return_result self ifc_file output_file
       conversion_time conversion_metadata)
    (fun e =>
       emit (LogMockFailed (p_name ifc_file) e) ;;;
       now <- time_time ;;
       ret (mkResult (p_name ifc_file) "failed"
                     ("Mock conversion failed: " +:+ str_exn e)
                     (now - start_time)%Q false false None)).

Definition convert_single_file (self : ProjectIfcConverter)
    (ifc_file : path) : Py ConvResult :=
  start_time <- time_time ;;
  let output_file :=
    joinpath (target_dir self) (stem ifc_file +:+ ".frag") in
  _ <- exists_ output_file ;;
  try_except
    (let cmd := [sys_executable self; str_path (portable_converter self);
                 source_dir self; target_dir self;
                 "--single"; p_name ifc_file; "--auto"] in
     result <- subprocess_run cmd (Some 30) ;;
     now <- time_time ;;
     let conversion_time := (now - start_time)%Q in
     if returncode result =? 0
     then
       created <- exists_ output_file ;;
       if created : bool
       then
         sz <- stat_size output_file ;;
         if 0 <? sz
         then
           emit (LogConverted (p_name ifc_file)) ;;;
           _process_successful_conversion self ifc_file output_file
             conversion_time
         else raise (Exception "Output file not created or is empty")
       else raise (Exception "Output file not created or is empty")
     else
       raise (Exception ("Portable converter failed with code "
                         +:+ str_Z (returncode result) +:+ ": "
                         +:+ stderr result)))
    (fun e =>
       match e with
       | TimeoutExpired _ =>
           emit (LogTimedOut (p_name ifc_file)) ;;;
           _fallback_mock_conversion self ifc_file output_file start_time
       | _ =>
           emit (LogConverterFailed (p_name ifc_file) e) ;;;
           _fallback_mock_conversion self ifc_file output_file start_time
       end).
End Converter.

Section Run.
Context `{!PyLib}.

Definition save_report (self : ProjectIfcConverter) : Py unit :=
  now <- time_time ;;
  let report_file :=
    joinpath (log_dir self)
             ("conversion_report_" +:+ strftime now +:+ ".json") in
  stats <- gets st_stats ;;
  stamp <- time_time ;;
  let report_data :=
    mkReport stats (source_dir self) (target_dir self) (script_dir self)
             (converter_package_dir self) stamp in
  try_except
    (write_bytes report_file (json_dump report_data) ;;;
     emit (LogReportSaved report_file))
    (fun e => emit (LogCouldNotSaveReport e)).

(** The [DB1] and [DB2] marks of one line of the detailed results. *)
Definition db_info_primary (self : ProjectIfcConverter) (result : ConvResult)
  : SummaryMark :=
  if database_enabled self
  then if r_db_stored result then MarkOk else MarkFail
  else MarkNone.

Definition attempted_secondary_in_result (self : ProjectIfcConverter)
    (result : ConvResult) : bool :=
  if String.eqb (r_status result) "success"
  then if database_enabled self then r_db_stored result else true
  else false.

Definition db_info_secondary (self : ProjectIfcConverter)
    (result : ConvResult) : SummaryMark :=
  if secondary_database_enabled self
  then if attempted_secondary_in_result self result
       then if r_db_stored_secondary result then MarkOk else MarkFail
       else MarkNotAttempted
  else MarkNone.

(** The storage statistics block of the summary, for one sink. *)
Definition print_storage_stats (h : option FragmentsBYTEAHandler) : Py unit :=
  match h with
  | None => raise (AttributeError "get_storage_stats")
  | Some h =>
      db_stats <- get_storage_stats h ;;
      match db_stats with
      | Some st =>
          total_size_mb <-
            truediv (inject_Z <$> total_size_bytes st) mb ;;
          ret tt
      | None => ret tt
      end
  end.

(** The success and storage rates of the summary. *)
Definition print_rates (self : ProjectIfcConverter) (stats : Stats)
  : Py unit :=
  when (0 <? successful stats)
    (success_rate <- truediv (Some (inject_Z (successful stats)))
                             (inject_Z (total_files stats)) ;;
     when (database_enabled self && (0 <? db_stored stats))
       (rate <- truediv (Some (inject_Z (db_stored stats)))
                        (inject_Z (successful stats)) ;;
        ret tt) ;;;
     when (secondary_database_enabled self && (0 <? successful stats))
       (let eligible_for_secondary_attempt :=
          if database_enabled self then db_stored stats
          else successful stats in
        when (0 <? eligible_for_secondary_attempt)
          (rate <- truediv (Some (inject_Z (db_stored_secondary stats)))
                           (inject_Z eligible_for_secondary_attempt) ;;
           ret tt))).

(** One line of the detailed results. *)
Definition summary_line (self : ProjectIfcConverter) (result : ConvResult)
  : event :=
  LogSummaryLine (r_file result) (db_info_primary self result)
                 (db_info_secondary self result).

Definition print_summary (self : ProjectIfcConverter) : Py unit :=
  when (database_enabled self) (print_storage_stats (db_handler self)) ;;;
  when (secondary_database_enabled self)
       (print_storage_stats (db_handler_secondary self)) ;;;
  stats <- gets st_stats ;;
  print_rates self stats ;;;
  for_each (results stats) (fun result => emit (summary_line self result)) ;;;
  save_report self.

Definition count_status (result : ConvResult) (st : Stats) : Stats :=
  if String.eqb (r_status result) "success"
  then with_counts st 1 0 0 0 0 0 0
  else if String.eqb (r_status result) "failed"
  then with_counts st 0 1 0 0 0 0 0
  else if String.eqb (r_status result) "skipped"
  then with_counts st 0 0 1 0 0 0 0
  else st.

(** The body of [for i, ifc_file in enumerate(ifc_files, 1)]. *)
Fixpoint process_files (self : ProjectIfcConverter) (total : Z) (i : Z)
    (ifc_files : list path) : Py unit :=
  match ifc_files with
  | [] => ret tt
  | ifc_file :: rest =>
      result <- convert_single_file self ifc_file ;;
      modify (set_stats (append_result result)) ;;;
      modify (set_stats (count_status result)) ;;;
      progress <- truediv (Some (inject_Z i)) (inject_Z total) ;;
      process_files self total (i + 1) rest
  end.

Definition convert_all_files (self : ProjectIfcConverter) : Py unit :=
  now <- time_time ;;
  modify (set_stats (set_start_time now)) ;;;
  ifc_files <- find_ifc_files self ;;
  modify (set_stats (set_total_files (len ifc_files))) ;;;
  match ifc_files with
  | [] => emit LogNoFiles
  | _ =>
      process_files self (len ifc_files) 1 ifc_files ;;;
      finish <- time_time ;;
      modify (set_stats (set_end_time finish)) ;;;
      print_summary self
  end.

Definition dir_exists (d : string) : Py bool :=
  gets (fun s => bool_decide (d ∈ st_dirs s)).

Definition validate_environment (self : ProjectIfcConverter) : Py bool :=
  pkg <- dir_exists (converter_package_dir self) ;;
  if negb pkg then ret false else
  script <- exists_ (portable_converter self) ;;
  if negb script then ret false else
  src <- dir_exists (source_dir self) ;;
  if negb src then ret false else
  tgt <- dir_exists (target_dir self) ;;
  if tgt : bool then ret true
  else try_except (mkdir (target_dir self) ;;; ret true)
                  (fun _ => ret false).

Definition run (self : ProjectIfcConverter) : Py bool :=
  try_except
    (ok <- validate_environment self ;;
     if negb ok then ret false
     else convert_all_files self ;;; ret true)
    (fun _ => ret false).

(** [ProjectIfcConverter()], the sinks: the primary handler is built
    from [DB_CONFIG_LOC]; the secondary one from the configuration the
    project domain selects, when the parameter module defines it. *)
Definition secondary_db_config (PjDomain : string)
    (DB_CONFIG_QGN DB_CONFIG_HUB : option string) : option string :=
  if String.eqb PjDomain "XQG4_XSPL" then DB_CONFIG_QGN
  else if String.eqb PjDomain "XQG4_XCIM" then DB_CONFIG_HUB
  else None.

Definition new_converter (script_dir path_F1_CO PjName PjDomain : string)
    (DB_CONFIG_LOC : string) (DB_CONFIG_QGN DB_CONFIG_HUB : option string)
    (package_dir executable : string) : Py ProjectIfcConverter :=
  mkdir (script_dir +:+ "/logs") ;;;
  primary <- try_except (h <- new_handler DB_CONFIG_LOC ;; ret (Some h))
                        (fun _ => ret None) ;;
  secondary <-
    match secondary_db_config PjDomain DB_CONFIG_QGN DB_CONFIG_HUB with
    | Some cfg => try_except (h <- new_handler cfg ;; ret (Some h))
                             (fun _ => ret None)
    | None => ret None
    end ;;
  modify (set_stats (fun _ => init_stats)) ;;;
  ret (mkConverter script_dir (script_dir +:+ "/logs")
                   path_F1_CO path_F1_CO PjName
                   (bool_decide (is_Some primary)) primary
                   (bool_decide (is_Some secondary)) secondary
                   package_dir
                   (joinpath package_dir "ifc_fragments_converter.py")
                   executable).
End Run.

(** *** backend/subprocess_converter.py *)

Module XFRG.

Record XFRGSubprocessConverter := mkSelf {
  backend_dir : string;
  converter_script : path
}.

(** [XFRGSubprocessConverter()]. *)
Definition new (backend_dir : string) : Py XFRGSubprocessConverter :=
  let script := joinpath backend_dir "ifc_converter.js" in
  found <- path_exists script ;;
  if found : bool then ret (mkSelf backend_dir script)
  else raise (OSError ("JavaScript converter not found: "
                       +:+ str_path script)).

Definition convert_ifc_file (self : XFRGSubprocessConverter)
    (input_file output_file : string) (timeout : Z)
  : Py (gmap string pyval) :=
  start_time <- time_time ;;
  let input_path := Path input_file in
  let output_path := Path output_file in
  found <- path_exists input_path ;;
  if negb found
  then ret (list_to_map
              [("success", VBool false);
               ("error", VStr ("Input file not found: " +:+ input_file));
               ("conversion_time", VInt 0)])
  else
    mkdir (p_parent output_path) ;;;
    try_except
      (let cmd := ["node"; "--max-old-space-size=8192";
                   str_path (converter_script self);
                   "--input"; str_path input_path;
                   "--output"; str_path output_path] in
       result <- subprocess_run cmd (Some timeout) ;;
       now <- time_time ;;
       let conversion_time := (now - start_time)%Q in
       created <- path_exists output_path ;;
       if (returncode result =? 0) && created
       then
         file_size <- entry_stat_size output_path ;;
         file_size_mb <- truediv (Some (inject_Z file_size)) mb ;;
         ret (list_to_map
                [("success", VBool true);
                 ("output_file", VStr (p_name output_path));
                 ("file_size", VInt file_size);
                 ("file_size_mb", VFloat (round2 file_size_mb));
                 ("conversion_time", VFloat (round2 conversion_time));
                 ("method", VStr "subprocess_isolation");
                 ("converter", VStr "thatopen_components_subprocess")])
       else
         let error_msg :=
           if String.eqb (stderr result) "" 
           then "Conversion failed with return code "
                +:+ str_Z (returncode result)
           else stderr result in
         ret (list_to_map
                [("success", VBool false);
                 ("error", VStr error_msg);
                 ("conversion_time", VFloat (round2 conversion_time));
                 ("return_code", VInt (returncode result));
                 ("stdout", VStr (stdout result));
                 ("stderr", VStr (stderr result))]))
      (fun e =>
         match e with
         | TimeoutExpired _ =>
             now <- time_time ;;
             let conversion_time := (now - start_time)%Q in
             let error_msg := "Conversion timed out after "
                              +:+ str_Z timeout +:+ " seconds" in
             ret (list_to_map
                    [("success", VBool false);
                     ("error", VStr error_msg);
                     ("conversion_time", VFloat (round2 conversion_time));
                     ("timeout", VInt timeout)])
         | _ =>
             now <- time_time ;;
             let conversion_time := (now - start_time)%Q in
             let error_msg := "Subprocess execution failed: "
                              +:+ str_exn e in
             ret (list_to_map
                    [("success", VBool false);
                     ("error", VStr error_msg);
                     ("conversion_time", VFloat (round2 conversion_time));
                     ("exception", VStr (str_exn e))])
         end).

End XFRG.

(** *** backend/app.py *)

Module App.

(** The tier [convert_ifc] selects from the size of the uploaded file:
    the options passed to [node] and the timeout.  The source writes
    the whole command out in each branch; the three commands differ in
    these options only. *)
Definition select_tier (temp_file_size : Z) : list string * Z :=
  let file_size_mb := (inject_Z temp_file_size / mb)%Q in
  if Qltb 50 file_size_mb
  then (["--max-old-space-size=8192"; "--max-semi-space-size=1024";
         "--expose-gc"], 3600)
  else if Qltb 20 file_size_mb
  then (["--max-old-space-size=4096"; "--expose-gc"], 1800)
  else ([], 600).

Definition select_command (CONVERTER_SCRIPT temp_ifc_path output_path
    : string) (temp_file_size : Z) : list string * Z :=
  let '(node_options, timeout) := select_tier temp_file_size in
  ("node" :: node_options
     ++ [CONVERTER_SCRIPT; "--input"; temp_ifc_path;
         "--output"; output_path],
   timeout).

(** The timeout [convert_ifc_subprocess] selects. *)
Definition select_timeout (size : Z) : Z :=
  let file_size_mb := (inject_Z size / mb)%Q in
  if Qltb 100 file_size_mb then 3600
  else if Qltb 50 file_size_mb then 1800
  else if Qltb 10 file_size_mb then 1200
  else 600.

(** [convert_ifc], from the saved upload on.  [filename] is the uploaded
    name, [base_name] its sanitized form without [.ifc]; the answer is
    the JSON body with the HTTP status, [None] when the handler falls
    off its end. *)
Definition convert_ifc (FRAGMENTS_DIR CONVERTER_SCRIPT : string)
    (filename base_name temp_ifc_path : string)
  : Py (option (gmap string pyval * Z)) :=
  try_except
    (let output_filename := base_name +:+ ".frag" in
     let output_path := joinpath FRAGMENTS_DIR output_filename in
     temp_file_size <- stat_size (Path temp_ifc_path) ;;
     let '(cmd, timeout) :=
       select_command CONVERTER_SCRIPT temp_ifc_path (str_path output_path)
                      temp_file_size in
     try_except (_ <- subprocess_run ["node"; "--version"] None ;; ret tt)
                (fun _ => ret tt) ;;;
     let timed_out :=
       unlink (Path temp_ifc_path) ;;;
       ret (inl (list_to_map
                   [("success", VBool false);
                    ("error", VStr ("Conversion timed out after "
                                    +:+ str_Z (timeout / 60)
                                    +:+ ".0 minutes"))], 500)) in
     run <-
       try_except
         (result <- subprocess_run cmd (Some timeout) ;; ret (inr result))
         (fun e =>
            match e with
            | TimeoutExpired _ => timed_out
            | _ =>
                try_except
                  (result <- subprocess_run cmd (Some timeout) ;;
                   ret (inr (mkCompleted (returncode result)
                               "No output captured" "No stderr captured")))
                  (fun e' =>
                     match e' with
                     | TimeoutExpired _ => timed_out
                     | _ => raise e'
                     end)
            end) ;;
     match run with
     | inl response => ret (Some response)
     | inr result =>
         unlink (Path temp_ifc_path) ;;;
         created <- exists_ output_path ;;
         if (returncode result =? 0) && created
         then
           size <- stat_size output_path ;;
           size_mb <- truediv (Some (inject_Z size)) mb ;;
           ret (Some (list_to_map
                        [("success", VBool true);
                         ("message", VStr ("Successfully converted "
                                           +:+ filename));
                         ("output_file", VStr output_filename);
                         ("size_mb", VFloat (round2 size_mb));
                         ("conversion_time", VStr "< 1 minute")], 200))
         else
           let error_msg := if String.eqb (stderr result) ""
                            then "Conversion failed" else stderr result in
           ret (Some (list_to_map
                        [("success", VBool false);
                         ("error", VStr ("Conversion failed: "
                                         +:+ error_msg))], 500))
     end)
    (fun e =>
       found <- exists_ (Path temp_ifc_path) ;;
       if found : bool
       then
         unlink (Path temp_ifc_path) ;;;
         ret (Some (list_to_map
                      [("success", VBool false);
                       ("error", VStr ("Server error: " +:+ str_exn e))],
                    500))
       else ret None).

End App.

(** ** Part II: the vocabulary of the properties *)

Section Vocabulary.
Context `{!PyLib}.

(** The value of [--max-old-space-size=<MB>] among the options passed to
    [node]; [None] when the option is absent and the default ceiling
    applies. *)
Fixpoint parse_digits (s : string) (acc : Z) : option Z :=
  match s with
  | EmptyString => Some acc
  | String c s' =>
      let n := Z.of_nat (nat_of_ascii c) in
      if (48 <=? n) && (n <=? 57)
      then parse_digits s' (10 * acc + (n - 48))
      else None
  end.

Definition option_value (flag arg : string) : option Z :=
  if String.prefix flag arg
  then parse_digits (substring (String.length flag)
                               (String.length arg - String.length flag) arg) 0
  else None.

Fixpoint memory_budget (node_options : list string) : option Z :=
  match node_options with
  | [] => None
  | o :: rest =>
      match option_value "--max-old-space-size=" o with
      | Some v => Some v
      | None => memory_budget rest
      end
  end.

(** The default ceiling is the least budget; the option raises it. *)
Definition budget_le (m1 m2 : option Z) : Prop :=
  match m1, m2 with
  | None, _ => True
  | Some _, None => False
  | Some a, Some b => a <= b
  end.

(** [wp m Q E s]: run from [s], [m] returns a value and a state in [Q], or
    raises an exception in a state in [E].  [m] is a function, so this is
    a total-correctness statement. *)
Definition wp {A} (m : Py A) (Q : A -> State -> Prop)
    (E : exn -> State -> Prop) (s : State) : Prop :=
  match m s with
  | (inr a, s') => Q a s'
  | (inl e, s') => E e s'
  end.

Definition no_exn : exn -> State -> Prop := fun _ _ => False.

Definition sink_event (e : event) : Prop :=
  match e with
  | EvSelect _ _ | EvInsert _ _ | LogAlreadyExists _ | LogStored _ _
  | LogStoreError _ _ => True
  | _ => False
  end.

(** Databases only gain rows, and only rows satisfying [P]. *)
Definition dbs_ext (P : Row -> Prop) (d d' : gmap string Database) : Prop :=
  forall k,
    match d !! k, d' !! k with
    | Some a, Some a' =>
        db_online a' = db_online a
        /\ exists extra, db_rows a' = db_rows a ++ extra /\ Forall P extra
    | None, None => True
    | _, _ => False
    end.

(** What a call of [store_fragment] can change: the trace, by sink
    events, and the databases, by rows carrying the metadata passed. *)
Record store_effect (meta : ConversionMetadata) (s s' : State) : Prop := {
  se_fs : st_fs s' = st_fs s;
  se_dirs : st_dirs s' = st_dirs s;
  se_readonly : st_readonly s' = st_readonly s;
  se_casefold : st_casefold s' = st_casefold s;
  se_clock : st_clock s' = st_clock s;
  se_proc : st_proc s' = st_proc s;
  se_stats : st_stats s' = st_stats s;
  se_trace : exists evs,
      st_trace s' = st_trace s ++ evs /\ Forall sink_event evs;
  se_dbs : dbs_ext (fun r => conversion_metadata r = meta)
                   (st_dbs s) (st_dbs s')
}.

(** The events a run added to the trace. *)
Definition new_events (s s' : State) : list event :=
  drop (List.length (st_trace s)) (st_trace s').

Definition is_launch (e : event) : bool :=
  match e with EvLaunch _ _ => true | _ => false end.
Definition is_storing_secondary (e : event) : bool :=
  match e with LogStoringSecondary _ => true | _ => false end.

(** How often the secondary sink's store was attempted. *)
Definition secondary_attempts (t : list event) : nat :=
  List.length (List.filter is_storing_secondary t).
Definition launches (t : list event) : list event := List.filter is_launch t.

Definition wf_handlers (self : ProjectIfcConverter) : Prop :=
  (database_enabled self = true -> is_Some (db_handler self))
  /\ (secondary_database_enabled self = true ->
      is_Some (db_handler_secondary self)).

(** What one item's processing keeps. *)
Record frame (P : Row -> Prop) (s s' : State) : Prop := {
  fr_dirs : st_dirs s' = st_dirs s;
  fr_readonly : st_readonly s' = st_readonly s;
  fr_casefold : st_casefold s' = st_casefold s;
  fr_proc : st_proc s' = st_proc s;
  fr_results : results (st_stats s') = results (st_stats s);
  fr_total : total_files (st_stats s') = total_files (st_stats s);
  fr_start : start_time (st_stats s') = start_time (st_stats s);
  fr_dbs : dbs_ext P (st_dbs s) (st_dbs s')
}.

(** Whether [_store_fragment_and_return_result] may attempt the secondary
    store, given the primary outcome it recorded. *)
Definition may_attempt_secondary (self : ProjectIfcConverter)
    (result : ConvResult) : bool :=
  secondary_database_enabled self
  && (negb (database_enabled self) || r_db_stored result).

Record store_result_post (self : ProjectIfcConverter) (ifc_file : path)
    (meta : ConversionMetadata) (s : State) (r : ConvResult) (s' : State)
  : Prop := {
  sr_file : r_file r = p_name ifc_file;
  sr_status : r_status r = "success";
  sr_stats : r_stats r = Some (mkResultStats (input_size_mb meta)
                                 (output_size_mb meta)
                                 (compression_ratio_percent meta));
  sr_primary : database_enabled self = false -> r_db_stored r = false;
  sr_secondary : r_db_stored_secondary r = true ->
                 may_attempt_secondary self r = true;
  sr_attempts :
    secondary_attempts (st_trace s') =
    (secondary_attempts (st_trace s)
     + if may_attempt_secondary self r then 1 else 0)%nat;
  sr_counters :
    db_stored_secondary (st_stats s') + db_failed_secondary (st_stats s') =
    db_stored_secondary (st_stats s) + db_failed_secondary (st_stats s)
    + (if may_attempt_secondary self r then 1 else 0);
  sr_counted :
    db_stored_secondary (st_stats s') =
    db_stored_secondary (st_stats s)
    + (if r_db_stored_secondary r then 1 else 0)
}.

Record store_result_frame (meta : ConversionMetadata) (s s' : State)
  : Prop := {
  sf_frame : frame (fun r => conversion_metadata r = meta) s s';
  sf_fs : st_fs s' = st_fs s;
  sf_clock : st_clock s' = st_clock s;
  sf_launches : launches (st_trace s') = launches (st_trace s)
}.

(** The value of the guarded compression-ratio expression. *)
Definition ratio_value (input_size_mb output_size_mb : Q) : Q :=
  if Qltb 0 input_size_mb
  then ((input_size_mb - output_size_mb) / input_size_mb * 100)%Q
  else 0%Q.

(** A size in bytes as megabytes. *)
Definition size_mb (size : Z) : Q := (inject_Z size / mb)%Q.

Definition primary_marked (m : ConversionMetadata) : Prop :=
  converter_version m = "portable_ifc_fragments_converter" /\ note m = None.

Definition fallback_marked (m : ConversionMetadata) : Prop :=
  converter_version m = "mock_converter_fallback"
  /\ note m = Some "Mock conversion used due to portable converter issues".

Definition fallback_row (r : Row) : Prop :=
  fallback_marked (conversion_metadata r).

(** What processing one item guarantees; [L] is the launch it made. *)
Record item_post (self : ProjectIfcConverter) (ifc_file : path)
    (L : event) (s : State) (r : ConvResult) (s' : State) : Prop := {
  ip_file : r_file r = p_name ifc_file;
  ip_status : r_status r = "success" \/ r_status r = "failed";
  ip_launches : launches (st_trace s') = launches (st_trace s) ++ [L];
  ip_frame : frame (fun _ => True) s s';
  ip_success :
    wf_handlers self -> r_status r = "success" ->
    exists meta, store_result_post self ifc_file meta s r s';
  ip_failed :
    wf_handlers self -> r_status r = "failed" ->
    r_db_stored r = false /\ r_db_stored_secondary r = false
    /\ secondary_attempts (st_trace s') = secondary_attempts (st_trace s)
    /\ st_stats s' = st_stats s /\ st_dbs s' = st_dbs s
}.

Definition launch_of (self : ProjectIfcConverter) (ifc_file : path) : event :=
  EvLaunch [sys_executable self; str_path (portable_converter self);
            source_dir self; target_dir self;
            "--single"; p_name ifc_file; "--auto"] (Some 30).

(** The entries [glob] lists in state [s]. *)
Definition glob_list (dir suffix : string) (s : State) : list path :=
  List.filter
    (fun p => String.eqb (p_parent p) dir
              && fnmatch_suffix (st_casefold s) (p_name p) suffix)
    (entries s).

(** The work items [find_ifc_files] makes of the entries of state [s]. *)
Definition work_items (self : ProjectIfcConverter) (s : State) : list path :=
  sorted_set (st_casefold s)
             (glob_list (source_dir self) ".ifc" s
              ++ glob_list (source_dir self) ".IFC" s).

(** The work items of a run started in state [s]: the search follows the
    validation of the environment, which may have made the target
    directory. *)
Definition discovered (self : ProjectIfcConverter) (s : State) : list path :=
  work_items self (validate_environment self s).2.

(** An entry [stat()] succeeds on: a file or a directory, not a dangling
    link. *)
Definition can_stat (s : State) (p : path) : Prop :=
  is_Some (st_fs s !! p) \/ p ∈ dir_entries s.


(** What a run over [files] leaves behind. *)
Record run_post (self : ProjectIfcConverter) (files : list path)
    (s s' : State) : Prop := {
  rp_results : exists rs,
      results (st_stats s') = results (st_stats s) ++ rs
      /\ r_file <$> rs = p_name <$> files
      /\ Forall (fun r => r_status r = "success" \/ r_status r = "failed") rs;
  rp_launches :
    launches (st_trace s') = launches (st_trace s) ++ (launch_of self <$> files);
  rp_total : total_files (st_stats s') = total_files (st_stats s);
  rp_start : start_time (st_stats s') = start_time (st_stats s);
  rp_dirs : st_dirs s' = st_dirs s;
  rp_readonly : st_readonly s' = st_readonly s;
  rp_dbs : dbs_ext (fun _ => True) (st_dbs s) (st_dbs s')
}.

Definition report_file_of (self : ProjectIfcConverter) (now : Q) : path :=
  joinpath (log_dir self) ("conversion_report_" +:+ strftime now +:+ ".json").

Definition report_of (self : ProjectIfcConverter) (s : State) : Report :=
  mkReport (st_stats s) (source_dir self) (target_dir self) (script_dir self)
           (converter_package_dir self) (st_clock s).

(** The two ways [save_report] ends: the report is written and the fact
    logged, or the write fails and the failure is logged. *)
Record report_outcome (self : ProjectIfcConverter) (s s' : State) : Prop := {
  ro_stats : st_stats s' = st_stats s;
  ro_dbs : st_dbs s' = st_dbs s;
  ro_launches : launches (st_trace s') = launches (st_trace s);
  ro_emitted :
    (st_trace s' =
       st_trace s ++ [LogReportSaved (report_file_of self (st_clock s))]
     /\ st_fs s' = <[report_file_of self (st_clock s) :=
                      mkFile (json_dump (report_of self s)) true]> (st_fs s))
    \/ (exists e, st_trace s' = st_trace s ++ [LogCouldNotSaveReport e]
                  /\ st_fs s' = st_fs s)
}.

(** The sinks whose statistics the summary prints. *)
Definition summary_sinks (self : ProjectIfcConverter)
  : list (option FragmentsBYTEAHandler) :=
  (if database_enabled self then [db_handler self] else [])
  ++ (if secondary_database_enabled self then [db_handler_secondary self]
      else []).

(** No sink the summary prints is reachable with an empty table. *)
Definition stats_printable (self : ProjectIfcConverter) (s : State) : Prop :=
  forall h db,
    Some h ∈ summary_sinks self ->
    st_dbs s !! db_config h = Some db -> db_online db = true ->
    db_rows db <> [].

Record summary_effect (s s' : State) : Prop := {
  su_stats : st_stats s' = st_stats s;
  su_dbs : st_dbs s' = st_dbs s;
  su_launches : launches (st_trace s') = launches (st_trace s)
}.

(** What [convert_all_files] leaves behind once the search returned,
    however the summary ends. *)
Record all_files_post (self : ProjectIfcConverter) (s s' : State) : Prop := {
  af_results : exists rs,
      results (st_stats s') = results (st_stats s) ++ rs
      /\ r_file <$> rs = p_name <$> work_items self s;
  af_launches :
    launches (st_trace s') =
    launches (st_trace s) ++ (launch_of self <$> work_items self s);
  af_total : total_files (st_stats s') = len (work_items self s)
}.

(** What it leaves behind when the search raised: an item could not be
    examined, and nothing was launched or recorded. *)
Definition search_aborted (self : ProjectIfcConverter) (s s' : State)
  : Prop :=
  Exists (fun p => ~ can_stat s p) (work_items self s)
  /\ results (st_stats s') = results (st_stats s)
  /\ launches (st_trace s') = launches (st_trace s)
  /\ st_fs s' = st_fs s /\ st_dbs s' = st_dbs s.

(** The state in which the worker of an item has run for [d] seconds. *)
Definition after_worker (self : ProjectIfcConverter) (ifc_file : path)
    (d : Q) (s : State) : State :=
  match launch_of self ifc_file with
  | EvLaunch cmd timeout =>
      set_clock (fun c => c + d)%Q
        (set_fs (fun _ => pr_fs (st_proc s cmd (st_fs s)))
           (set_trace (fun t => t ++ [EvLaunch cmd timeout]) s))
  | _ => s
  end.

Definition worker_run (self : ProjectIfcConverter) (ifc_file : path)
    (s : State) : ProcRun :=
  match launch_of self ifc_file with
  | EvLaunch cmd _ => st_proc s cmd (st_fs s)
  | _ => mkProcRun None 0 0 "" "" (st_fs s)
  end.

Definition output_of (self : ProjectIfcConverter) (ifc_file : path) : path :=
  joinpath (target_dir self) (stem ifc_file +:+ ".frag").

(** *** Vocabulary of the further properties *)

(** The row [store_fragment] inserts for a file with contents [data]. *)
Definition stored_row (db : Database) (fragment_file : path) (data : bytes)
    (ifc_source : string) (meta : ConversionMetadata) : Row :=
  mkRow (db_next_id db) (p_name fragment_file) (content_hash data) data
        (len data) ifc_source meta.

(** How a call of [store_fragment] that answered [ok] relates the sinks
    before and after: [True] means the hash was found, or the row was
    appended; [False] means nothing was stored and the error was logged. *)
Definition store_outcome (self : FragmentsBYTEAHandler) (fragment_file : path)
    (ifc_source : string) (meta : ConversionMetadata) (s : State) (ok : bool)
    (s' : State) : Prop :=
  if ok
  then exists f db,
      st_fs s !! fragment_file = Some f /\ f_readable f = true
      /\ st_dbs s !! db_config self = Some db /\ db_online db = true
      /\ ((exists row, row ∈ db_rows db
                       /\ file_hash row = content_hash (f_data f)
                       /\ st_dbs s' = st_dbs s)
          \/ (Forall (fun r => file_hash r <> content_hash (f_data f))
                     (db_rows db)
              /\ st_dbs s' =
                 <[db_config self :=
                     mkDb true
                          (db_rows db
                           ++ [stored_row db fragment_file (f_data f)
                                          ifc_source meta])
                          (db_next_id db + 1)]> (st_dbs s)))
  else st_dbs s' = st_dbs s
       /\ exists evs e,
           st_trace s' = st_trace s ++ evs
           /\ last evs = Some (LogStoreError (p_name fragment_file) e)
           /\ e <> DatabaseError
                     "duplicate key value violates unique constraint".

(** No two rows of a sink share a content hash. *)
Definition hashes_unique (d : gmap string Database) : Prop :=
  forall k db, d !! k = Some db -> NoDup (file_hash <$> db_rows db).

(** The environment [validate_environment] accepts. *)
Definition environment_ok (self : ProjectIfcConverter) (s : State) : Prop :=
  converter_package_dir self ∈ st_dirs s
  /\ is_Some (st_fs s !! portable_converter self)
  /\ source_dir self ∈ st_dirs s
  /\ (target_dir self ∈ st_dirs s \/ st_readonly s = false).

(** The input of an item can be read and its output written. *)
Definition item_io_ok (ifc_file output_file : path) (s : State) : Prop :=
  (exists f, st_fs s !! ifc_file = Some f /\ f_readable f = true)
  /\ p_parent output_file ∈ st_dirs s
  /\ st_readonly s = false.


(** How storing one converted item moves the counters of the primary
    sink; the counters of the items stay as they are. *)
Definition primary_counts (self : ProjectIfcConverter) (r : ConvResult)
    (st st' : Stats) : Prop :=
  successful st' = successful st /\ failed st' = failed st
  /\ skipped st' = skipped st
  /\ db_stored st' = db_stored st + (if r_db_stored r then 1 else 0)
  /\ db_failed st' =
     db_failed st
     + (if database_enabled self && negb (r_db_stored r) then 1 else 0).

(** The counters after [n] more items: every item is successful or
    failed, none is skipped; the primary sink was tried for every
    successful item when it is enabled, and never otherwise; the secondary
    sink was tried for every eligible item when it is enabled. *)
Definition tally (self : ProjectIfcConverter) (n : Z) (st st' : Stats)
  : Prop :=
  let ds := successful st' - successful st in
  let d1 := db_stored st' - db_stored st in
  let eligible := if database_enabled self then d1 else ds in
  0 <= ds /\ 0 <= failed st' - failed st
  /\ ds + (failed st' - failed st) = n
  /\ skipped st' = skipped st
  /\ 0 <= d1 /\ 0 <= db_failed st' - db_failed st
  /\ d1 + (db_failed st' - db_failed st)
     = (if database_enabled self then ds else 0)
  /\ 0 <= db_stored_secondary st' - db_stored_secondary st
  /\ 0 <= db_failed_secondary st' - db_failed_secondary st
  /\ (db_stored_secondary st' - db_stored_secondary st)
     + (db_failed_secondary st' - db_failed_secondary st)
     = (if secondary_database_enabled self then eligible else 0).

(** The names [find_ifc_files] accepts on the file system of [s]: the
    two patterns are [*.ifc] and [*.IFC]; a file system that ignores case
    matches both without regard to case. *)
Definition ifc_name (s : State) (name : string) : bool :=
  if st_casefold s then endswith (lower name) ".ifc"
  else endswith name ".ifc" || endswith name ".IFC".




(** The launches [convert_ifc] may make for an upload of [size] bytes:
    the version probe, and the command of the size's tier with the
    timeout of that tier. *)
Definition tier_launch (CONVERTER_SCRIPT temp_ifc_path output_path : string)
    (size : Z) (ev : event) : Prop :=
  ev = EvLaunch ["node"; "--version"] None
  \/ ev = EvLaunch
            (App.select_command CONVERTER_SCRIPT temp_ifc_path output_path
               size).1
            (Some (App.select_command CONVERTER_SCRIPT temp_ifc_path
                     output_path size).2).

End Vocabulary.

(** *** Sample machines *)

(** A stand-in for the library functions: a checksum for the hash, the
    file names for the report, the whole seconds for the time stamp. *)
Definition sample_lib : PyLib := {|
  sha256 := Z * Z;
  sha256_new := (0, 0);
  sha256_update := fun h c =>
    (foldr (fun x a => Z.of_N (Byte.to_N x) + a) h.1 c, h.2 + len c);
  sha256_hexdigest := fun h => str_Z h.1 +:+ "-" +:+ str_Z h.2;
  json_dump := fun r =>
    b (String.concat ";" (r_file <$> results (conversion_summary r)));
  strftime := fun t => str_Z (Qfloor t)
|}.

Definition sample_dir : string := "/data/F1_CO".

Definition sample_files : gmap path File :=
  list_to_map
    [(mkPath sample_dir "b.ifc", mkFile (b "ISO-10303-21;") true);
     (mkPath sample_dir "a.ifc", mkFile [] true);
     (mkPath sample_dir "c.IFC", mkFile (b "xyz") false);
     (mkPath sample_dir "notes.txt", mkFile (b "xyz") true)].

(** A worker that always exits with status 1. *)
Definition failing_worker : list string -> gmap path File -> ProcRun :=
  fun _ fs => mkProcRun None 1 1 "" "boom" fs.

(** A worker that exits with status 0 and leaves an empty output file. *)
Definition empty_output_worker : list string -> gmap path File -> ProcRun :=
  fun _ fs =>
    mkProcRun None 1 0 "" "" (<[mkPath "/out" "a.frag" := mkFile [] true]> fs).

Definition sample_dbs : gmap string Database :=
  list_to_map [("loc", mkDb true [] 1); ("hub", mkDb true [] 1)].

Definition sample_state : State :=
  mkState sample_files {[sample_dir; "/opt/logs"; "/out"]} ∅ false false
          sample_dbs 0 failing_worker [] init_stats.

(** No IFC file in the source directory. *)
Definition empty_source_state : State :=
  mkState {[mkPath sample_dir "notes.txt" := mkFile (b "xyz") true]}
          {[sample_dir; "/opt/logs"]} ∅ false false
          sample_dbs 0 failing_worker [] init_stats.

(** One unreadable IFC file, so that worker and fallback both fail. *)
Definition unreadable_source_state : State :=
  mkState {[mkPath sample_dir "c.IFC" := mkFile (b "xyz") false]}
          {[sample_dir; "/opt/logs"]} ∅ false false
          sample_dbs 0 failing_worker [] init_stats.

Definition empty_output_state : State :=
  mkState sample_files {[sample_dir; "/out"]} ∅ false false
          sample_dbs 0 empty_output_worker [] init_stats.

Definition sample_converter (primary secondary : bool)
  : ProjectIfcConverter :=
  mkConverter "/opt" "/opt/logs" sample_dir sample_dir "PJ"
              primary (if primary then Some (mkHandler "loc") else None)
              secondary (if secondary then Some (mkHandler "hub") else None)
              "/data/XALG/frag_convert"
              (mkPath "/data/XALG/frag_convert" "ifc_fragments_converter.py")
              "python".

Definition sample_xfrg : XFRG.XFRGSubprocessConverter :=
  XFRG.mkSelf "/srv/backend" (mkPath "/srv/backend" "ifc_converter.js").

Definition a_ifc : path := mkPath sample_dir "a.ifc".
Definition a_frag : path := mkPath sample_dir "a.frag".

(** The state after [b.ifc] was stored once in the primary sink. *)
Definition stored_once : State :=
  (@store_fragment sample_lib (mkHandler "loc") (mkPath sample_dir "b.ifc") "b.ifc"
     (mkMeta 0 0 0 0 "" "" "" 0 None) sample_state).2.

(** The primary sink is unreachable. *)
Definition primary_down_state : State :=
  mkState sample_files {[sample_dir; "/opt/logs"]} ∅ false false
          (list_to_map [("loc", mkDb false [] 1); ("hub", mkDb true [] 1)])
          0 failing_worker [] init_stats.


(** The same machine without any IFC file. *)
Definition ready_empty_state : State :=
  mkState
    {[mkPath "/data/XALG/frag_convert" "ifc_fragments_converter.py" :=
        mkFile (b "#!python") true]}
    {[sample_dir; "/opt/logs"; "/data/XALG/frag_convert"]} ∅ false false
    sample_dbs 0 failing_worker [] init_stats.


Definition b_ifc : path := mkPath sample_dir "b.ifc".
Definition b_frag : path := mkPath sample_dir "b.frag".
Definition meta0 : ConversionMetadata := mkMeta 0 0 0 0 "" "" "" 0 None.

(** The same machine with another worker. *)
Definition with_worker (w : list string -> gmap path File -> ProcRun)
    (s : State) : State :=
  mkState (st_fs s) (st_dirs s) (st_links s) (st_readonly s) (st_casefold s)
          (st_dbs s) (st_clock s) w (st_trace s) (st_stats s).

(** A worker that exits with status 0 and writes nothing. *)
Definition idle_worker : list string -> gmap path File -> ProcRun :=
  fun _ fs => mkProcRun None 1 0 "" "" fs.

(** A valid environment whose only IFC file cannot be read, so that
    worker and fallback both fail; the sinks are reachable and empty. *)
Definition all_failed_state : State :=
  mkState
    (<[mkPath "/data/XALG/frag_convert" "ifc_fragments_converter.py" :=
         mkFile (b "#!python") true]>
       {[mkPath sample_dir "c.IFC" := mkFile (b "xyz") false]})
    {[sample_dir; "/opt/logs"; "/data/XALG/frag_convert"]} ∅ false false
    sample_dbs 0 failing_worker [] init_stats.




(** ** Part III: the properties *)

(** *** Resource policy *)

Lemma Qltb_mb (k size : Z) :
  Qltb (inject_Z k) (inject_Z size / mb) = (k * 1048576 <? size).
Proof.
  unfold Qltb, Qle_bool, mb, Qdiv, Qmult, Qinv, inject_Z. simpl.
  destruct (Z.ltb_spec (k * 1048576) size) as [Hlt | Hge];
    [apply negb_true_iff, Z.leb_gt | apply negb_false_iff, Z.leb_le]; lia.
Qed.

Lemma select_tier_eq (size : Z) :
  App.select_tier size =
  if 50 * 1048576 <? size
  then (["--max-old-space-size=8192"; "--max-semi-space-size=1024";
         "--expose-gc"], 3600)
  else if 20 * 1048576 <? size
  then (["--max-old-space-size=4096"; "--expose-gc"], 1800)
  else ([], 600).
Proof.
  unfold App.select_tier.
  change 50%Q with (inject_Z 50). change 20%Q with (inject_Z 20).
  by rewrite !Qltb_mb.
Qed.

Lemma select_timeout_eq (size : Z) :
  App.select_timeout size =
  if 100 * 1048576 <? size then 3600
  else if 50 * 1048576 <? size then 1800
  else if 10 * 1048576 <? size then 1200
  else 600.
Proof.
  unfold App.select_timeout.
  change 100%Q with (inject_Z 100). change 50%Q with (inject_Z 50).
  change 10%Q with (inject_Z 10).
  by rewrite !Qltb_mb.
Qed.

(** C5. Larger inputs never receive a stricter policy: for [size1 < size2]
    the timeout and the memory budget [convert_ifc] selects do not
    decrease, nor does the timeout [convert_ifc_subprocess] selects; and
    [convert_ifc] has three distinct (timeout, memory) tiers. *)
Theorem resource_policy_monotone (size1 size2 : Z) :
  size1 < size2 ->
  (App.select_tier size1).2 <= (App.select_tier size2).2
  /\ budget_le (memory_budget (App.select_tier size1).1)
               (memory_budget (App.select_tier size2).1)
  /\ App.select_timeout size1 <= App.select_timeout size2
  /\ (let tier size := (memory_budget (App.select_tier size).1,
                        (App.select_tier size).2) in
      tier (5 * 1048576) = (None, 600)
      /\ tier (30 * 1048576) = (Some 4096, 1800)
      /\ tier (60 * 1048576) = (Some 8192, 3600)).
Proof.
  intros Hlt.
  split; [| split; [| split]]; [| | | by vm_compute];
    rewrite ?select_tier_eq, ?select_timeout_eq;
    repeat match goal with
           | |- context [?a <? ?b] => destruct (Z.ltb_spec a b)
           end; try lia; vm_compute; (exact I || discriminate).
Qed.

Lemma resource_policy_monotone_witness :
  (App.select_tier (5 * 1048576)).2 <= (App.select_tier (60 * 1048576)).2
  /\ budget_le (memory_budget (App.select_tier (5 * 1048576)).1)
               (memory_budget (App.select_tier (60 * 1048576)).1).
Proof.
  destruct (resource_policy_monotone (5 * 1048576) (60 * 1048576))
    as (H1 & H2 & _); [lia | exact (conj H1 H2)].
Defined.

(** *** Reasoning about [Py] programs *)

Lemma wp_bind {A B} (m : Py A) (k : A -> Py B) Q E s :
  wp m (fun a s' => wp (k a) Q E s') E s -> wp (bind m k) Q E s.
Proof. unfold wp, bind. by destruct (m s) as [[e | a] s']. Qed.

Lemma wp_try {A} (m : Py A) (h : exn -> Py A) Q E s :
  wp m Q (fun e s' => wp (h e) Q E s') s -> wp (try_except m h) Q E s.
Proof. unfold wp, try_except. by destruct (m s) as [[e | a] s']. Qed.

Lemma wp_conseq {A} (m : Py A) (Q Q' : A -> State -> Prop)
    (E E' : exn -> State -> Prop) s :
  wp m Q' E' s ->
  (forall a s', Q' a s' -> Q a s') ->
  (forall e s', E' e s' -> E e s') ->
  wp m Q E s.
Proof. unfold wp. destruct (m s) as [[e | a] s']; auto. Qed.

Lemma wp_run {A} (m : Py A) Q E s :
  wp m Q E s ->
  match (m s).1 with
  | inr a => Q a (m s).2
  | inl e => E e (m s).2
  end.
Proof. unfold wp. by destruct (m s) as [[e | a] s']. Qed.

Lemma wp_returns {A} (m : Py A) Q s :
  wp m Q no_exn s -> exists a s', m s = (inr a, s') /\ Q a s'.
Proof. unfold wp. destruct (m s) as [[e | a] s']; [done | eauto]. Qed.

Lemma wp_of_eq {A} (m : Py A) (Q : A -> State -> Prop) E s a s' :
  m s = (inr a, s') -> Q a s' -> wp m Q E s.
Proof. unfold wp. by intros ->. Qed.

(** After [wp_bind] on a call with a proved specification. *)
Ltac wp_call spec :=
  apply wp_bind; eapply wp_conseq; [apply spec | | ]; simpl.

(** Rules for the library calls. *)
Lemma wp_ret {A} (a : A) (Q : A -> State -> Prop) E s : Q a s -> wp (ret a) Q E s.
Proof. done. Qed.
Lemma wp_raise {A} e (Q : A -> State -> Prop) (E : exn -> State -> Prop) s :
  E e s -> wp (raise e) Q E s.
Proof. done. Qed.
Lemma wp_emit e (Q : unit -> State -> Prop) E s :
  Q tt (set_trace (fun t => t ++ [e]) s) -> wp (emit e) Q E s.
Proof. done. Qed.
Lemma wp_modify f (Q : unit -> State -> Prop) E s :
  Q tt (f s) -> wp (modify f) Q E s.
Proof. done. Qed.
Lemma wp_gets {A} (f : State -> A) (Q : A -> State -> Prop) E s :
  Q (f s) s -> wp (gets f) Q E s.
Proof. done. Qed.
Lemma wp_time_time (Q : Q -> State -> Prop) E s :
  Q (st_clock s) s -> wp time_time Q E s.
Proof. done. Qed.
Lemma wp_exists_ p (Q : bool -> State -> Prop) E s :
  Q (bool_decide (is_Some (st_fs s !! p))) s -> wp (exists_ p) Q E s.
Proof. done. Qed.

Lemma wp_read_bytes p (Q : bytes -> State -> Prop) (E : exn -> State -> Prop) s :
  (forall f, st_fs s !! p = Some f -> f_readable f = true -> Q (f_data f) s) ->
  (forall msg, E (OSError msg) s) ->
  wp (read_bytes p) Q E s.
Proof.
  intros HQ HE. unfold wp, read_bytes.
  destruct (st_fs s !! p) as [f |] eqn:Hf; [| apply HE].
  destruct (f_readable f) eqn:Hr; [by apply HQ | apply HE].
Qed.

Lemma wp_stat_size p (Q : Z -> State -> Prop) (E : exn -> State -> Prop) s :
  (forall f, st_fs s !! p = Some f -> Q (len (f_data f)) s) ->
  (forall msg, E (OSError msg) s) ->
  wp (stat_size p) Q E s.
Proof.
  intros HQ HE. unfold wp, stat_size.
  destruct (st_fs s !! p) as [f |] eqn:Hf; [by apply HQ | apply HE].
Qed.

Lemma wp_write_bytes p data (Q : unit -> State -> Prop) (E : exn -> State -> Prop) s :
  (p_parent p ∈ st_dirs s -> st_readonly s = false ->
   Q tt (set_fs (insert p (mkFile data true)) s)) ->
  (forall msg, E (OSError msg) s) ->
  wp (write_bytes p data) Q E s.
Proof.
  intros HQ HE. unfold wp, write_bytes.
  case_bool_decide; [| apply HE].
  destruct (st_readonly s) eqn:Hr; [apply HE | by apply HQ].
Qed.

Lemma wp_truediv x y (Q : Q -> State -> Prop) (E : exn -> State -> Prop) s :
  Qeq_bool y 0 = false ->
  Q (x / y)%Q s ->
  wp (truediv (Some x) y) Q E s.
Proof. intros Hy HQ. unfold wp, truediv. by rewrite Hy. Qed.

Lemma wp_get_connection self (Q : Database -> State -> Prop) (E : exn -> State -> Prop) s :
  (forall db, st_dbs s !! db_config self = Some db -> db_online db = true -> Q db s) ->
  (forall msg, E (DatabaseError msg) s) ->
  wp (get_connection self) Q E s.
Proof.
  intros HQ HE. unfold wp, get_connection.
  destruct (st_dbs s !! db_config self) as [db |] eqn:Hdb; [| apply HE].
  destruct (db_online db) eqn:Hon; [by apply HQ | apply HE].
Qed.

(** One step of symbolic execution. *)
Ltac wp_step :=
  lazymatch goal with
  | |- wp (bind _ _) _ _ _ => apply wp_bind
  | |- wp (try_except _ _) _ _ _ => apply wp_try
  | |- wp (ret _) _ _ _ => apply wp_ret
  | |- wp (raise _) _ _ _ => apply wp_raise
  | |- wp (emit _) _ _ _ => apply wp_emit
  | |- wp (modify _) _ _ _ => apply wp_modify
  | |- wp (gets _) _ _ _ => apply wp_gets
  | |- wp time_time _ _ _ => apply wp_time_time
  | |- wp (exists_ _) _ _ _ => apply wp_exists_
  | |- wp (read_bytes _) _ _ _ =>
      apply wp_read_bytes; [intros ? ? ? | intros ?]; simpl in *
  | |- wp (stat_size _) _ _ _ =>
      apply wp_stat_size; [intros ? ? | intros ?]; simpl in *
  | |- wp (write_bytes _ _) _ _ _ =>
      apply wp_write_bytes; [intros ? ? | intros ?]; simpl in *
  | |- wp (get_connection _) _ _ _ =>
      apply wp_get_connection; [intros ? ? ? | intros ?]; simpl in *
  | |- wp (truediv (Some _) mb) _ _ _ => apply wp_truediv; [reflexivity |]
  | |- wp (when ?c _) _ _ _ => unfold when
  | |- wp (if ?c then _ else _) _ _ _ => destruct c eqn:?
  | |- wp (match ?c with _ => _ end) _ _ _ => destruct c eqn:?
  end; simpl.

Ltac wp_steps := repeat wp_step.

(** *** FragmentsBYTEAHandler.store_fragment *)

Lemma dbs_ext_refl P d : dbs_ext P d d.
Proof.
  intros k. destruct (d !! k); [| done].
  split; [done |]. exists []. by rewrite app_nil_r.
Qed.

Lemma dbs_ext_trans P d1 d2 d3 :
  dbs_ext P d1 d2 -> dbs_ext P d2 d3 -> dbs_ext P d1 d3.
Proof.
  intros H12 H23 k. specialize (H12 k). specialize (H23 k).
  destruct (d1 !! k), (d2 !! k), (d3 !! k); try done.
  destruct H12 as (O1 & e1 & R1 & F1), H23 as (O2 & e2 & R2 & F2).
  split; [congruence |]. exists (e1 ++ e2).
  rewrite R2, R1, app_assoc. split; [done | by apply Forall_app].
Qed.

Lemma dbs_ext_weaken (P P' : Row -> Prop) d d' :
  (forall r, P r -> P' r) -> dbs_ext P d d' -> dbs_ext P' d d'.
Proof.
  intros HP H k. specialize (H k).
  destruct (d !! k), (d' !! k); try done.
  destruct H as (? & e & ? & F). split; [done |]. exists e.
  split; [done |]. eapply Forall_impl; eauto.
Qed.

Lemma dbs_ext_insert P d k db row :
  d !! k = Some db -> P row ->
  dbs_ext P d (<[k := mkDb (db_online db) (db_rows db ++ [row])
                          (db_next_id db + 1)]> d).
Proof.
  intros Hk HP k'. destruct (decide (k = k')) as [<- | Hne].
  - rewrite Hk, lookup_insert_eq. simpl. split; [done |].
    exists [row]. split; [done | by constructor].
  - rewrite lookup_insert_ne by done. apply dbs_ext_refl.
Qed.

Section StoreFacts.
Context `{!PyLib}.

Lemma store_fragment_spec self fragment_file ifc_source meta s :
  wp (store_fragment self fragment_file ifc_source meta)
     (fun _ s' => store_effect meta s s') no_exn s.
Proof.
  unfold store_fragment, calculate_file_hash, select_id_by_hash,
    insert_fragment.
  wp_steps;
    (constructor; simpl; try done;
     [rewrite <- ?app_assoc; eexists; split;
        [reflexivity | by repeat constructor]
     | first [apply dbs_ext_refl | by apply dbs_ext_insert]]).
Qed.
End StoreFacts.

Lemma new_events_app s s' evs :
  st_trace s' = st_trace s ++ evs -> new_events s s' = evs.
Proof. unfold new_events. intros ->. apply drop_app_length. Qed.

Section IdempotentStore.
Context `{!PyLib}.

Lemma find_hash_some rows hash (row : Row) :
  row ∈ rows -> file_hash row = hash ->
  is_Some (List.find (fun r => String.eqb (file_hash r) hash) rows).
Proof.
  intros Hin Hh.
  destruct (List.find _ rows) eqn:Hf; [eauto |].
  apply list_elem_of_In in Hin. apply (find_none _ _ Hf row) in Hin.
  rewrite Hh, String.eqb_refl in Hin. done.
Qed.

(** The already-exists branch of [store_fragment]. *)
Lemma store_fragment_already_present self fragment_file ifc_source meta s f
    db row :
  st_fs s !! fragment_file = Some f ->
  f_readable f = true ->
  st_dbs s !! db_config self = Some db ->
  db_online db = true ->
  row ∈ db_rows db ->
  file_hash row = content_hash (f_data f) ->
  exists s',
    store_fragment self fragment_file ifc_source meta s = (inr true, s')
    /\ new_events s s' =
         [EvSelect (db_config self) (content_hash (f_data f));
          LogAlreadyExists (p_name fragment_file)]
    /\ st_dbs s' = st_dbs s
    /\ st_fs s' = st_fs s.
Proof.
  intros Hfs Hr Hdb Hon Hin Hh.
  destruct (find_hash_some _ _ _ Hin Hh) as [r Hfind].
  eexists. split.
  - cbv [store_fragment try_except bind calculate_file_hash
           select_id_by_hash get_connection read_bytes stat_size emit
           modify ret].
    rewrite Hfs, Hr. cbn. rewrite Hfs. cbn. rewrite Hdb, Hon. cbn.
    rewrite Hfind. reflexivity.
  - split; [| done]. apply new_events_app. simpl.
    by rewrite <- app_assoc.
Qed.

(** Two stores in a row: when the first one succeeds, the second one
    succeeds through the already-exists branch and leaves the table as
    the first one left it. *)
Lemma store_fragment_twice self fragment_file ifc_source meta meta' s s1 :
  store_fragment self fragment_file ifc_source meta s = (inr true, s1) ->
  exists s2,
    store_fragment self fragment_file ifc_source meta' s1 = (inr true, s2)
    /\ st_dbs s2 = st_dbs s1
    /\ LogAlreadyExists (p_name fragment_file) ∈ new_events s1 s2
    /\ Forall (fun e => match e with EvInsert _ _ => False | _ => True end)
              (new_events s1 s2).
Proof.
  intros Hfirst.
  assert (exists f db row,
             st_fs s1 !! fragment_file = Some f /\ f_readable f = true
             /\ st_dbs s1 !! db_config self = Some db /\ db_online db = true
             /\ row ∈ db_rows db /\ file_hash row = content_hash (f_data f))
    as (f & db & row & Hfs & Hr & Hdb & Hon & Hin & Hh).
  { revert Hfirst.
    cbv [store_fragment try_except bind calculate_file_hash
           select_id_by_hash insert_fragment get_connection read_bytes
           stat_size emit modify ret raise].
    destruct (st_fs s !! fragment_file) as [f |] eqn:Hfs; [| by cbn].
    destruct (f_readable f) eqn:Hr; [| by cbn]. cbn. rewrite Hfs. cbn.
    destruct (st_dbs s !! db_config self) as [db |] eqn:Hdb; [| by cbn].
    destruct (db_online db) eqn:Hon; [| by cbn]. cbn.
    destruct (List.find _ (db_rows db)) as [r |] eqn:Hfind; cbn.
    - intros [= <-]. apply find_some in Hfind as [Hin Heq].
      apply String.eqb_eq in Heq. apply list_elem_of_In in Hin.
      exists f, db, r. by cbn.
    - rewrite Hfs, Hr. cbn. rewrite Hdb, Hon. cbn.
      repeat (match goal with
              | |- context [if ?c then _ else _] => destruct c
              end; cbn); try done.
      intros [= <-]. cbn. eexists f, _, _. rewrite lookup_insert_eq.
      split_and!; try done; cbn.
      + apply elem_of_app. right. by apply list_elem_of_singleton.
      + done. }
  destruct (store_fragment_already_present self fragment_file ifc_source meta'
              s1 f db row Hfs Hr Hdb Hon Hin Hh) as (s2 & Hrun & Hev & Hd & _).
  exists s2. rewrite Hev. repeat split; try done.
  - apply elem_of_cons. right. by apply list_elem_of_singleton.
  - by repeat constructor.
Qed.
(** C4. Storing a file whose content hash is already in the sink returns
    [True] through the already-exists branch: the only statement sent is
    the [SELECT] (no [INSERT]), the record logged is the already-exists
    warning, and the sink's table, hence its row count, is unchanged. *)
Theorem store_fragment_idempotent self fragment_file ifc_source meta s f
    db row :
  st_fs s !! fragment_file = Some f ->
  f_readable f = true ->
  st_dbs s !! db_config self = Some db ->
  db_online db = true ->
  row ∈ db_rows db ->
  file_hash row = content_hash (f_data f) ->
  exists s',
    store_fragment self fragment_file ifc_source meta s = (inr true, s')
    /\ new_events s s' =
         [EvSelect (db_config self) (content_hash (f_data f));
          LogAlreadyExists (p_name fragment_file)]
    /\ st_dbs s' = st_dbs s
    /\ st_fs s' = st_fs s.
Proof. apply store_fragment_already_present. Qed.

End IdempotentStore.

(** *** Storing a converted fragment in both sinks *)

Lemma frame_refl P s : frame P s s.
Proof. constructor; try done. apply dbs_ext_refl. Qed.

Lemma frame_trans P s1 s2 s3 : frame P s1 s2 -> frame P s2 s3 -> frame P s1 s3.
Proof.
  intros [] []. constructor; try congruence.
  apply (dbs_ext_trans P _ (st_dbs s2)); assumption.
Qed.

Lemma frame_weaken (P P' : Row -> Prop) s s' :
  (forall r, P r -> P' r) -> frame P s s' -> frame P' s s'.
Proof.
  intros HP []. constructor; try done.
  apply (dbs_ext_weaken P); assumption.
Qed.

Lemma frame_of_store (P : Row -> Prop) meta s s' :
  (forall r, conversion_metadata r = meta -> P r) ->
  store_effect meta s s' -> frame P s s'.
Proof.
  intros HP []. constructor; try congruence.
  apply (dbs_ext_weaken (fun r => conversion_metadata r = meta)); assumption.
Qed.

Lemma frame_set_trace P s s' f : frame P s s' -> frame P s (set_trace f s').
Proof. by intros []. Qed.
Lemma frame_set_fs P s s' f : frame P s s' -> frame P s (set_fs f s').
Proof. by intros []. Qed.
Lemma frame_set_clock P s s' f : frame P s s' -> frame P s (set_clock f s').
Proof. by intros []. Qed.
Lemma frame_with_counts P s s' a b c d e f g :
  frame P s s' ->
  frame P s (set_stats (fun st => with_counts st a b c d e f g) s').
Proof. by intros []. Qed.

Lemma filter_sink_events (p : event -> bool) evs :
  (forall e, sink_event e -> p e = false) ->
  Forall sink_event evs -> List.filter p evs = [].
Proof.
  intros Hp. induction 1 as [| e evs He _ IH]; [done |].
  simpl. by rewrite (Hp e He).
Qed.

Lemma store_effect_launches meta s s' :
  store_effect meta s s' -> launches (st_trace s') = launches (st_trace s).
Proof.
  intros [_ _ _ _ _ _ _ (evs & -> & Hev) _]. unfold launches.
  rewrite List.filter_app, (filter_sink_events is_launch evs), app_nil_r;
    [done | by intros [] | done].
Qed.

Lemma store_effect_attempts meta s s' :
  store_effect meta s s' ->
  secondary_attempts (st_trace s') = secondary_attempts (st_trace s).
Proof.
  intros [_ _ _ _ _ _ _ (evs & -> & Hev) _]. unfold secondary_attempts.
  rewrite List.filter_app, (filter_sink_events is_storing_secondary evs),
    app_nil_r; [done | by intros [] | done].
Qed.

Lemma launches_snoc t e :
  launches (t ++ [e]) = launches t ++ (if is_launch e then [e] else []).
Proof. unfold launches. rewrite List.filter_app. simpl. by destruct (is_launch e). Qed.

Lemma secondary_attempts_snoc t e :
  secondary_attempts (t ++ [e]) =
  (secondary_attempts t + (if is_storing_secondary e then 1 else 0))%nat.
Proof.
  unfold secondary_attempts. rewrite List.filter_app, length_app. simpl.
  by destruct (is_storing_secondary e).
Qed.

Section StoreResult.
Context `{!PyLib}.

Lemma call_store_spec h output_file ifc_source meta s :
  wp (call_store h output_file ifc_source meta)
     (fun _ s' => store_effect meta s s')
     (fun e s' => e = AttributeError "store_fragment" /\ h = None /\ s' = s)
     s.
Proof.
  destruct h as [h |]; simpl; [| done].
  eapply wp_conseq; [apply store_fragment_spec | done | done].
Qed.

Ltac store_rewrite :=
  match goal with
  | H : store_effect _ _ ?s1 |- context [st_stats ?s1] =>
      rewrite (se_stats _ _ _ H)
  | H : store_effect _ _ ?s1 |- context [st_fs ?s1] =>
      rewrite (se_fs _ _ _ H)
  | H : store_effect _ _ ?s1 |- context [st_clock ?s1] =>
      rewrite (se_clock _ _ _ H)
  | H : store_effect _ _ ?s1 |- context [st_dirs ?s1] =>
      rewrite (se_dirs _ _ _ H)
  | H : store_effect _ _ ?s1 |- context [st_readonly ?s1] =>
      rewrite (se_readonly _ _ _ H)
  | H : store_effect _ _ ?s1 |- context [st_casefold ?s1] =>
      rewrite (se_casefold _ _ _ H)
  | H : store_effect _ _ ?s1 |- context [st_proc ?s1] =>
      rewrite (se_proc _ _ _ H)
  | H : store_effect _ _ ?s1 |- context [secondary_attempts (st_trace ?s1)] =>
      rewrite (store_effect_attempts _ _ _ H)
  | H : store_effect _ _ ?s1 |- context [launches (st_trace ?s1)] =>
      rewrite (store_effect_launches _ _ _ H)
  | |- context [secondary_attempts (_ ++ [_])] =>
      rewrite secondary_attempts_snoc
  | |- context [launches (_ ++ [_])] => rewrite launches_snoc
  end.

Ltac store_dbs :=
  lazymatch goal with
  | |- dbs_ext _ ?d ?d => apply dbs_ext_refl
  | H : store_effect _ ?x ?y |- dbs_ext ?P _ (st_dbs ?y) =>
      first [ exact (se_dbs _ _ _ H)
            | apply (dbs_ext_trans P _ (st_dbs x) _);
              [simpl; store_dbs | exact (se_dbs _ _ _ H)] ]
  end.

Ltac not_wf :=
  let W1 := fresh in
  let W2 := fresh in
  unfold wf_handlers; intros [W1 W2];
  first [ destruct (W1 ltac:(assumption)) as [? ?]; congruence
        | destruct (W2 ltac:(assumption)) as [? ?]; congruence ].

Ltac store_close :=
  simpl; repeat (store_rewrite; simpl);
  rewrite ?app_nil_r;
  first [done | lia | congruence | store_dbs | not_wf | idtac].

Lemma store_result_spec self ifc_file output_file ct meta s :
  wp (_store_fragment_and_return_result self ifc_file output_file ct meta)
     (fun r s' => store_result_post self ifc_file meta s r s'
                  /\ store_result_frame meta s s')
     (fun e s' => e = AttributeError "store_fragment"
                  /\ ~ wf_handlers self /\ store_result_frame meta s s') s.
Proof.
  unfold _store_fragment_and_return_result.
  repeat first
    [ wp_step
    | eapply wp_conseq;
      [apply call_store_spec | intros ? ? ? | intros ? ? (-> & ? & ->)];
      simpl ].
  all: lazymatch goal with
       | |- _ = _ /\ _ => split; [reflexivity | split; [not_wf |]]
       | |- _ =>
           split;
           [ constructor; unfold may_attempt_secondary; simpl;
             repeat match goal with
                    | H : _ = true |- _ => rewrite H
                    | H : _ = false |- _ => rewrite H
                    end; store_close |]
       end.
  all: constructor; [constructor |..]; store_close.
Qed.
End StoreResult.

(** *** The two producers: the converted fragment and the placeholder *)

Lemma Qltb_0_nonzero (x : Q) : Qltb 0 x = true -> Qeq_bool x 0 = false.
Proof.
  unfold Qltb. intros Hlt. apply negb_true_iff in Hlt.
  destruct (Qeq_bool x 0) eqn:Heq; [| done].
  apply Qeq_bool_iff in Heq.
  assert (Qle_bool x 0 = true) as Hle
    by (apply Qle_bool_iff; rewrite Heq; apply Qle_refl).
  congruence.
Qed.

Ltac frame_close :=
  repeat first [ apply frame_refl | assumption | apply frame_set_trace
               | apply frame_set_fs | apply frame_set_clock
               | apply frame_with_counts ].

Ltac fallback_failed :=
  split_and!;
  [ done
  | simpl; by rewrite !launches_snoc, !app_nil_r
  | frame_close
  | right; split_and!; try done; intros _; simpl;
    rewrite !secondary_attempts_snoc; simpl; split; [lia | done] ].

Section Conversion.
Context `{!PyLib}.

Lemma compression_ratio_run input_size_mb output_size_mb s :
  compression_ratio input_size_mb output_size_mb s
  = (inr (ratio_value input_size_mb output_size_mb), s).
Proof.
  unfold compression_ratio, ratio_value, bind, truediv, ret.
  destruct (Qltb 0 input_size_mb) eqn:Hlt; [| done].
  by rewrite (Qltb_0_nonzero _ Hlt).
Qed.

Lemma wp_compression_ratio i o (Q : Q -> State -> Prop) E s :
  Q (ratio_value i o) s -> wp (compression_ratio i o) Q E s.
Proof. intros HQ. unfold wp. by rewrite compression_ratio_run. Qed.

Lemma process_successful_spec self ifc_file output_file ct s :
  wp (_process_successful_conversion self ifc_file output_file ct)
     (fun r s' =>
        exists meta fi fo,
          st_fs s !! ifc_file = Some fi /\ st_fs s !! output_file = Some fo
          /\ primary_marked meta
          /\ compression_ratio_percent meta
             = ratio_value (size_mb (len (f_data fi)))
                           (size_mb (len (f_data fo)))
          /\ store_result_post self ifc_file meta s r s'
          /\ store_result_frame meta s s')
     (fun e s' =>
        e <> ZeroDivisionError
        /\ (s' = s
            \/ (~ wf_handlers self
                /\ exists meta, primary_marked meta
                                /\ store_result_frame meta s s'))) s.
Proof.
  unfold _process_successful_conversion.
  repeat first [ wp_step | apply wp_compression_ratio ].
  - eapply wp_conseq; [apply store_result_spec | |]; simpl.
    + intros r s' [Hpost Hfr].
      lazymatch goal with
      | Hfi : st_fs s !! ifc_file = Some ?fi,
        Hfo : st_fs s !! output_file = Some ?fo |- _ =>
          lazymatch type of Hpost with
          | store_result_post _ _ ?m _ _ _ => exists m, fi, fo
          end
      end.
      by split_and!.
    + intros e s' (-> & Hwf & Hfr). split; [done |]. right.
      split; [done |]. eexists. split; [| exact Hfr]. by split.
  - by split; [| left].
  - by split; [| left].
Qed.

Lemma store_result_post_from self ifc_file meta s0 s r s' :
  secondary_attempts (st_trace s) = secondary_attempts (st_trace s0) ->
  st_stats s = st_stats s0 ->
  store_result_post self ifc_file meta s r s' ->
  store_result_post self ifc_file meta s0 r s'.
Proof. intros Ha Hs []. constructor; try done; congruence. Qed.

Lemma fallback_spec self ifc_file output_file t0 s :
  wp (_fallback_mock_conversion self ifc_file output_file t0)
     (fun r s' =>
        r_file r = p_name ifc_file
        /\ launches (st_trace s') = launches (st_trace s)
        /\ frame fallback_row s s'
        /\ ((exists fi meta fs1 fi' fo',
                st_fs s !! ifc_file = Some fi /\ f_readable fi = true
                /\ fs1 = <[output_file :=
                             mkFile (mock_fragment_data (f_data fi)) true]>
                           (st_fs s)
                /\ st_fs s' = fs1
                /\ fs1 !! ifc_file = Some fi' /\ fs1 !! output_file = Some fo'
                /\ fallback_marked meta
                /\ compression_ratio_percent meta
                   = ratio_value (size_mb (len (f_data fi')))
                                 (size_mb (len (f_data fo')))
                /\ store_result_post self ifc_file meta s r s'
                /\ dbs_ext (fun row => conversion_metadata row = meta)
                           (st_dbs s) (st_dbs s'))
             \/ (r_status r = "failed" /\ r_db_stored r = false
                 /\ r_db_stored_secondary r = false /\ r_stats r = None
                 /\ (wf_handlers self ->
                     secondary_attempts (st_trace s')
                     = secondary_attempts (st_trace s)
                     /\ st_stats s' = st_stats s
                     /\ st_dbs s' = st_dbs s))))
     no_exn s.
Proof.
  unfold _fallback_mock_conversion.
  repeat first [ wp_step | apply wp_compression_ratio ].
  - eapply wp_conseq; [apply store_result_spec | |]; simpl.
    + intros r s' [Hpost Hfr].
      pose proof (sf_frame _ _ _ Hfr) as Hframe.
      apply (frame_weaken _ fallback_row) in Hframe;
        [| by intros row Hrow; unfold fallback_row; rewrite Hrow].
      split_and!.
      * apply Hpost.
      * rewrite (sf_launches _ _ _ Hfr). simpl.
        by rewrite !launches_snoc, !app_nil_r.
      * eapply frame_trans; [| exact Hframe]. frame_close.
      * left.
        lazymatch goal with
        | Hfi : st_fs s !! ifc_file = Some ?fi,
          Hfi' : <[output_file := _]> (st_fs s) !! ifc_file = Some ?fi',
          Hfo' : <[output_file := _]> (st_fs s) !! output_file = Some ?fo'
          |- _ =>
            lazymatch type of Hpost with
            | store_result_post _ _ ?m _ _ _ =>
                exists fi, m,
                  (<[output_file :=
                       mkFile (mock_fragment_data (f_data fi)) true]>
                     (st_fs s)), fi', fo'
            end
        end.
        split_and!; try done.
        -- by rewrite (sf_fs _ _ _ Hfr).
        -- eapply store_result_post_from; [| | exact Hpost]; simpl;
             [rewrite !secondary_attempts_snoc; simpl; lia | done].
        -- apply Hfr.
    + intros e s' (-> & Hwf & Hfr).
      pose proof (sf_frame _ _ _ Hfr) as Hframe.
      apply (frame_weaken _ fallback_row) in Hframe;
        [| by intros row Hrow; unfold fallback_row; rewrite Hrow].
      wp_steps. split_and!; [done | | | right; by split_and!].
      * rewrite launches_snoc, (sf_launches _ _ _ Hfr). simpl.
        by rewrite !launches_snoc, !app_nil_r.
      * apply frame_set_trace. eapply frame_trans; [| exact Hframe].
        frame_close.
  - fallback_failed.
  - fallback_failed.
  - fallback_failed.
  - fallback_failed.
Qed.
End Conversion.

(** *** Processing one item *)

Lemma wp_subprocess_run cmd timeout (K : CompletedProcess -> State -> Prop)
    (E : exn -> State -> Prop) s :
  let r := st_proc s cmd (st_fs s) in
  let s1 := set_trace (fun t => t ++ [EvLaunch cmd timeout]) s in
  let ran (d : Q) :=
    set_clock (fun c => c + d)%Q (set_fs (fun _ => pr_fs r) s1) in
  (forall msg, pr_launch_error r = Some msg -> E (OSError msg) s1) ->
  (forall t, timeout = Some t -> pr_launch_error r = None ->
             Qltb (inject_Z t) (pr_duration r) = true ->
             E (TimeoutExpired t) (ran (inject_Z t))) ->
  (pr_launch_error r = None ->
   (forall t, timeout = Some t ->
              Qltb (inject_Z t) (pr_duration r) = false) ->
   K (mkCompleted (pr_returncode r) (pr_stdout r) (pr_stderr r))
     (ran (pr_duration r))) ->
  wp (subprocess_run cmd timeout) K E s.
Proof.
  intros r s1 ran HL HT HQ. unfold wp, subprocess_run. fold r. fold s1.
  destruct (pr_launch_error r) as [msg |] eqn:Hl; [by apply HL |].
  destruct timeout as [t |].
  - destruct (Qltb (inject_Z t) (pr_duration r)) eqn:Hd.
    + by apply HT.
    + apply HQ; [done |]. by intros ? [= <-].
  - apply HQ; [done | done].
Qed.

Section Item.
Context `{!PyLib}.

Lemma fallback_item self ifc_file output_file t0 L s0 s :
  frame (fun _ => True) s0 s ->
  launches (st_trace s) = launches (st_trace s0) ++ [L] ->
  (wf_handlers self ->
   secondary_attempts (st_trace s) = secondary_attempts (st_trace s0)
   /\ st_stats s = st_stats s0 /\ st_dbs s = st_dbs s0) ->
  wp (_fallback_mock_conversion self ifc_file output_file t0)
     (item_post self ifc_file L s0) no_exn s.
Proof.
  intros Hfr HL Hwf.
  eapply wp_conseq; [apply fallback_spec | | done]; simpl.
  intros r s' (Hfile & Hl & Hframe & Hcase).
  apply (frame_weaken _ (fun _ => True)) in Hframe; [| done].
  constructor.
  - done.
  - destruct Hcase as [(fi & meta & fs1 & fi' & fo' & Hc) | Hc].
    + left. apply Hc.
    + right. apply Hc.
  - congruence.
  - by eapply frame_trans.
  - intros W Hs. destruct (Hwf W) as (Ha & Hst & Hd).
    destruct Hcase as [(fi & meta & fs1 & fi' & fo' & Hc) | Hc].
    + exists meta. eapply store_result_post_from; [exact Ha | exact Hst |].
      apply Hc.
    + destruct Hc as (Hf & _). rewrite Hf in Hs. discriminate.
  - intros W Hs. destruct (Hwf W) as (Ha & Hst & Hd).
    destruct Hcase as [(fi & meta & fs1 & fi' & fo' & Hc) | Hc].
    + destruct Hc as (_ & _ & _ & _ & _ & _ & _ & _ & Hpost & _).
      rewrite (sr_status _ _ _ _ _ _ Hpost) in Hs. discriminate.
    + destruct Hc as (_ & H1 & H2 & _ & Hrest).
      destruct (Hrest W) as (Ha' & Hst' & Hd'). split_and!; congruence.
Qed.

Ltac item_fallback :=
  wp_steps; apply fallback_item;
  [ frame_close
  | simpl; rewrite !launches_snoc; simpl; by rewrite ?app_nil_r
  | intros _; simpl; rewrite !secondary_attempts_snoc; simpl;
    split_and!; [lia | done | done] ].

Lemma convert_single_file_spec self ifc_file s :
  wp (convert_single_file self ifc_file)
     (item_post self ifc_file (launch_of self ifc_file) s) no_exn s.
Proof.
  unfold convert_single_file.
  wp_step. wp_step. wp_step. wp_step. wp_step. wp_step.
  apply wp_subprocess_run; simpl.
  - intros msg _. item_fallback.
  - intros t [= <-] _ _. item_fallback.
  - intros _ _. wp_steps.
    all: try item_fallback.
    eapply wp_conseq; [apply process_successful_spec | |]; simpl.
    + intros r s' (meta & fi & fo & _ & _ & Hm & _ & Hpost & Hfr).
      pose proof (sf_frame _ _ _ Hfr) as Hframe.
      apply (frame_weaken _ (fun _ => True)) in Hframe; [| done].
      constructor.
      * apply Hpost.
      * left. apply Hpost.
      * rewrite (sf_launches _ _ _ Hfr). simpl.
        rewrite !launches_snoc. simpl. by rewrite ?app_nil_r.
      * eapply frame_trans; [| exact Hframe]. frame_close.
      * intros _ _. exists meta.
        eapply store_result_post_from; [| | exact Hpost]; simpl;
          [rewrite !secondary_attempts_snoc; simpl; lia | done].
      * intros _ Hs. rewrite (sr_status _ _ _ _ _ _ Hpost) in Hs.
        discriminate.
    + intros e s' (_ & [-> | (Hwf & meta & _ & Hfr)]).
      * destruct e; item_fallback.
      * pose proof (sf_frame _ _ _ Hfr) as Hframe.
        apply (frame_weaken _ (fun _ => True)) in Hframe; [| done].
        destruct e; wp_steps;
          (apply fallback_item;
           [ apply frame_set_trace; eapply frame_trans; [| exact Hframe];
             frame_close
           | simpl; rewrite launches_snoc, (sf_launches _ _ _ Hfr); simpl;
             rewrite !launches_snoc; simpl; by rewrite ?app_nil_r
           | intros W; destruct (Hwf W) ]).
Qed.
End Item.

(** *** Discovery order *)

Lemma string_compare_refl (a : string) : String.compare a a = Eq.
Proof. by apply String_as_OT.cmp_eq. Qed.

Lemma string_compare_trans (a b c : string) :
  String.compare a b = Lt -> String.compare b c = Lt ->
  String.compare a c = Lt.
Proof.
  intros H1 H2. apply String_as_OT.cmp_lt.
  apply String_as_OT.cmp_lt in H1, H2. by eapply String_as_OT.lt_trans.
Qed.

Lemma path_compare_eq (p q : path) : path_compare p q = Eq <-> p = q.
Proof.
  unfold path_compare. split.
  - destruct p as [d n], q as [d' n']; simpl.
    destruct (String.compare d d') eqn:Hd; try done.
    intros Hn. apply String.compare_eq_iff in Hd, Hn. by subst.
  - intros ->. by rewrite !string_compare_refl.
Qed.

Lemma path_compare_antisym (p q : path) :
  path_compare p q = CompOpp (path_compare q p).
Proof.
  unfold path_compare.
  rewrite (String.compare_antisym (p_parent p) (p_parent q)).
  rewrite (String.compare_antisym (p_name p) (p_name q)).
  by destruct (String.compare (p_parent q) (p_parent p)).
Qed.

Lemma path_lt_trans (p q r : path) :
  path_lt p q -> path_lt q r -> path_lt p r.
Proof.
  unfold path_lt, path_compare.
  destruct (String.compare (p_parent p) (p_parent q)) eqn:H1; try done;
    destruct (String.compare (p_parent q) (p_parent r)) eqn:H2; try done.
  - apply String.compare_eq_iff in H1, H2. rewrite H1, H2.
    rewrite string_compare_refl. apply string_compare_trans.
  - apply String.compare_eq_iff in H1. rewrite H1, H2. done.
  - apply String.compare_eq_iff in H2. rewrite <- H2, H1. done.
  - by rewrite (string_compare_trans _ _ _ H1 H2).
Qed.

Lemma path_le_lt_eq (p q : path) : path_le p q <-> path_lt p q \/ p = q.
Proof.
  unfold path_le, path_lt. rewrite <- path_compare_eq.
  destruct (path_compare p q); split; try done; auto; by intros [|].
Qed.

#[global] Instance path_le_total : Total path_le.
Proof.
  intros p q. unfold path_le. rewrite (path_compare_antisym q p).
  destruct (path_compare p q); simpl; auto.
Qed.

#[global] Instance path_le_trans : Transitive path_le.
Proof.
  intros p q r. rewrite !path_le_lt_eq.
  intros [H1 | ->] [H2 | ->]; eauto using path_lt_trans.
Qed.

#[global] Instance path_le_on_total c : Total (path_le_on c).
Proof. intros p q. unfold path_le_on. apply path_le_total. Qed.

#[global] Instance path_le_on_trans c : Transitive (path_le_on c).
Proof.
  intros p q r. unfold path_le_on.
  apply (path_le_trans (path_key c p) (path_key c q) (path_key c r)).
Qed.

Lemma set_of_elem_of key seen l p :
  p ∈ set_of key seen l -> p ∈ l /\ key p ∉ seen.
Proof.
  revert seen. induction l as [| x l IH]; intros seen; simpl;
    [by intros ?%elem_of_nil |].
  case_bool_decide as Hx.
  - intros [? ?]%IH. split; [by apply list_elem_of_further | done].
  - intros [-> | Hin]%elem_of_cons; [split; [apply list_elem_of_here | done] |].
    apply IH in Hin as [? Hn]. split; [by apply list_elem_of_further |].
    intros ?. apply Hn. by apply list_elem_of_further.
Qed.

Lemma set_of_complete key seen l p :
  p ∈ l -> key p ∉ seen ->
  exists q, q ∈ set_of key seen l /\ key q = key p.
Proof.
  revert seen. induction l as [| x l IH]; intros seen;
    [by intros ?%elem_of_nil |].
  intros [-> | Hin]%elem_of_cons Hn; simpl.
  - rewrite bool_decide_eq_false_2 by done.
    exists x. split; [apply list_elem_of_here | done].
  - case_bool_decide as Hx; [by apply IH |].
    destruct (decide (key p = key x)) as [Heq | Hne].
    + exists x. split; [apply list_elem_of_here | done].
    + destruct (IH (key x :: seen) Hin) as (q & Hq & Hk).
      { intros [? | ?]%elem_of_cons; done. }
      exists q. split; [by apply list_elem_of_further | done].
Qed.

Lemma set_of_NoDup key seen l : NoDup (key <$> set_of key seen l).
Proof.
  revert seen. induction l as [| x l IH]; intros seen; simpl; [constructor |].
  case_bool_decide; [apply IH |].
  rewrite fmap_cons. constructor; [| apply IH].
  intros (q & Hk & Hq)%list_elem_of_fmap.
  apply set_of_elem_of in Hq as [_ Hn]. apply Hn. rewrite <- Hk.
  apply list_elem_of_here.
Qed.

Lemma sorted_set_elem_of c (l : list path) (p : path) :
  p ∈ sorted_set c l -> p ∈ l.
Proof.
  unfold sorted_set. rewrite merge_sort_Permutation.
  by intros [? _]%set_of_elem_of.
Qed.

Lemma sorted_set_complete c (l : list path) (p : path) :
  p ∈ l -> exists q, q ∈ sorted_set c l /\ path_key c q = path_key c p.
Proof.
  intros Hin.
  destruct (set_of_complete (path_key c) [] l p Hin) as (q & Hq & Hk);
    [apply not_elem_of_nil |].
  exists q. split; [| done]. unfold sorted_set.
  by rewrite merge_sort_Permutation.
Qed.

Lemma sorted_set_NoDup_keys c (l : list path) :
  NoDup (path_key c <$> sorted_set c l).
Proof.
  unfold sorted_set. rewrite merge_sort_Permutation. apply set_of_NoDup.
Qed.

Lemma sorted_set_NoDup c (l : list path) : NoDup (sorted_set c l).
Proof. eapply NoDup_fmap_1, sorted_set_NoDup_keys. Qed.




Lemma glob_list_elem_of dir suffix s p :
  p ∈ glob_list dir suffix s <->
  p ∈ entries s /\ p_parent p = dir
  /\ fnmatch_suffix (st_casefold s) (p_name p) suffix = true.
Proof.
  unfold glob_list. rewrite list_elem_of_In, filter_In, <- list_elem_of_In.
  by rewrite andb_true_iff, String.eqb_eq.
Qed.

Section Discovery.
Context `{!PyLib}.

Lemma globbed_elem_of self s p :
  p ∈ glob_list (source_dir self) ".ifc" s
      ++ glob_list (source_dir self) ".IFC" s <->
  p ∈ entries s /\ p_parent p = source_dir self
  /\ ifc_name s (p_name p) = true.
Proof.
  rewrite elem_of_app, !glob_list_elem_of. unfold ifc_name, fnmatch_suffix.
  destruct (st_casefold s);
    [change (lower ".IFC") with ".ifc"; change (lower ".ifc") with ".ifc"
    | rewrite orb_true_iff]; tauto.
Qed.

Lemma work_items_elem_of self s p :
  p ∈ work_items self s ->
  p ∈ entries s /\ p_parent p = source_dir self
  /\ ifc_name s (p_name p) = true.
Proof.
  unfold work_items. intros Hin%sorted_set_elem_of. by apply globbed_elem_of.
Qed.

Lemma entry_stat_size_run p s :
  (can_stat s p /\ exists z, entry_stat_size p s = (inr z, s))
  \/ (~ can_stat s p
      /\ entry_stat_size p s = (inl (OSError "No such file or directory"), s)).
Proof.
  unfold can_stat, entry_stat_size, is_dir.
  destruct (st_fs s !! p) as [f |] eqn:Hf; [left; eauto |].
  case_bool_decide as Hd; [left; eauto |].
  right. split; [| done]. by intros [[? ?] | ?].
Qed.

Lemma for_each_stat (l : list path) s :
  wp (for_each l (fun ifc_file =>
                    sz <- entry_stat_size ifc_file ;;
                    file_size <- truediv (Some (inject_Z sz)) mb ;;
                    ret tt))
     (fun _ s' => s' = s /\ Forall (can_stat s) l)
     (fun e s' => s' = s /\ e = OSError "No such file or directory"
                  /\ Exists (fun p => ~ can_stat s p) l) s.
Proof.
  induction l as [| p l IH]; [by split |].
  simpl. apply wp_bind. apply wp_bind. unfold wp at 1.
  destruct (entry_stat_size_run p s) as [[Hc [z ->]] | [Hn ->]].
  - wp_step. wp_step. wp_step. eapply wp_conseq; [apply IH | |]; simpl.
    + intros _ s' [-> Hl]. split; [done | by constructor].
    + intros e s' (-> & -> & Hl). split_and!; [done | done |].
      by apply Exists_cons_tl.
  - split_and!; [done | done |]. by apply Exists_cons_hd.
Qed.

(** The search returns the work items when each of them can be examined,
    and raises otherwise; it changes nothing. *)
Lemma find_ifc_files_spec self s :
  wp (find_ifc_files self)
     (fun l s' => s' = s /\ l = work_items self s /\ Forall (can_stat s) l)
     (fun e s' => s' = s /\ e = OSError "No such file or directory"
                  /\ Exists (fun p => ~ can_stat s p) (work_items self s)) s.
Proof.
  unfold find_ifc_files, glob.
  apply wp_bind, wp_gets; cbv beta.
  apply wp_bind, wp_gets; cbv beta.
  apply wp_bind, wp_gets; cbv beta zeta.
  set (items := sorted_set _ _).
  assert (items = work_items self s) as Hitems by reflexivity.
  clearbody items. subst items.
  destruct (work_items self s) as [| p l] eqn:Hd; [by apply wp_ret |].
  apply wp_bind. eapply wp_conseq; [apply for_each_stat | |]; cbv beta.
  - intros _ s' [-> Hall]. by apply wp_ret.
  - intros e s' (-> & -> & Hex). done.
Qed.

Lemma find_ifc_files_empty self s :
  work_items self s = [] -> find_ifc_files self s = (inr [], s).
Proof.
  intros Hnone.
  pose proof (find_ifc_files_spec self s) as Hwp. unfold wp in Hwp.
  destruct (find_ifc_files self s) as [[e | l] s'].
  - destruct Hwp as (_ & _ & Hex). rewrite Hnone in Hex. by inversion Hex.
  - destruct Hwp as (-> & -> & _). by rewrite Hnone.
Qed.
End Discovery.

(** *** The run *)

Lemma inject_Z_nonzero (z : Z) : z <> 0 -> Qeq_bool (inject_Z z) 0 = false.
Proof.
  intros Hz. destruct (Qeq_bool (inject_Z z) 0) eqn:Heq; [| done].
  apply Qeq_bool_iff in Heq. unfold Qeq in Heq. simpl in Heq. lia.
Qed.

Section RunLoop.
Context `{!PyLib}.

Lemma process_files_spec self total files : forall i s,
  total <> 0 ->
  wp (process_files self total i files)
     (fun _ s' => run_post self files s s') no_exn s.
Proof.
  induction files as [| f files IH]; intros i s Ht; simpl.
  - constructor; try done; rewrite ?app_nil_r; try done.
    + exists []. by rewrite app_nil_r.
    + apply dbs_ext_refl.
  - apply wp_bind.
    eapply wp_conseq; [apply convert_single_file_spec | | done]; simpl.
    intros r s1 Hitem. wp_step. wp_step. wp_step. wp_step. wp_step.
    apply wp_truediv; [by apply inject_Z_nonzero |].
    eapply wp_conseq; [apply (IH (i + 1) _ Ht) | | done]; simpl.
    intros _ s2 Hrest.
    destruct Hitem as
      [Hf Hst Hl [Hd1 Hro1 Hcf1 Hp1 Hres1 Htot1 Hstart1 Hdb1] _ _].
    destruct Hrest as [(rs & Hrs & Hfiles & Hall) Hl2 Ht2 Hs2 Hd2 Hr2 Hdb2].
    simpl in *.
    assert (forall st, results (count_status r st) = results st) as Hcr
      by (intros st; unfold count_status; by repeat case_match).
    assert (forall st, total_files (count_status r st) = total_files st)
      as Hct by (intros st; unfold count_status; by repeat case_match).
    assert (forall st, start_time (count_status r st) = start_time st)
      as Hcs by (intros st; unfold count_status; by repeat case_match).
    rewrite Hcr in Hrs. rewrite Hct in Ht2. rewrite Hcs in Hs2. simpl in *.
    constructor.
    + exists (r :: rs). split_and!.
      * by rewrite Hrs, Hres1, <- app_assoc.
      * by rewrite !fmap_cons, Hf, Hfiles.
      * by constructor.
    + by rewrite Hl2, Hl, <- app_assoc, fmap_cons.
    + congruence.
    + congruence.
    + congruence.
    + congruence.
    + eapply dbs_ext_trans; eassumption.
Qed.
End RunLoop.

(** *** Summary and report *)

Lemma state_eta (s : State) :
  mkState (st_fs s) (st_dirs s) (st_links s) (st_readonly s) (st_casefold s) (st_dbs s)
          (st_clock s) (st_proc s) (st_trace s) (st_stats s) = s.
Proof. by destruct s. Qed.

Lemma for_each_emit {A} (g : A -> event) (l : list A) : forall s,
  for_each l (fun x => emit (g x)) s
  = (inr tt, set_trace (fun t => t ++ (g <$> l)) s).
Proof.
  induction l as [| x l IH]; intros s; simpl.
  - unfold ret, set_trace. by rewrite app_nil_r, state_eta.
  - unfold bind at 1. unfold emit at 1, modify. rewrite IH.
    unfold set_trace. simpl. by rewrite <- app_assoc.
Qed.

Section Summary.
Context `{!PyLib}.

Lemma save_report_spec self s :
  wp (save_report self) (fun _ s' => report_outcome self s s') no_exn s.
Proof.
  unfold save_report. wp_steps.
  - constructor; simpl; try done.
    + by rewrite launches_snoc, app_nil_r.
    + by left.
  - constructor; simpl; try done.
    + by rewrite launches_snoc, app_nil_r.
    + right. by eexists.
Qed.

Lemma print_storage_stats_run h s :
  (forall db, st_dbs s !! db_config h = Some db -> db_online db = true ->
              db_rows db <> []) ->
  print_storage_stats (Some h) s = (inr tt, s).
Proof.
  intros Hne.
  cbv [print_storage_stats get_storage_stats try_except bind get_connection
         ret].
  destruct (st_dbs s !! db_config h) as [db |] eqn:Hdb; [| done].
  destruct (db_online db) eqn:Hon; [| done].
  specialize (Hne db eq_refl Hon).
  destruct (db_rows db) as [| row rows] eqn:Hrows; [done |].
  reflexivity.
Qed.

Lemma print_storage_stats_any h s :
  wp (print_storage_stats h) (fun _ s' => s' = s) (fun _ s' => s' = s) s.
Proof.
  destruct h as [h |]; [| done].
  unfold wp.
  cbv [print_storage_stats get_storage_stats try_except bind get_connection
         ret truediv raise].
  destruct (st_dbs s !! db_config h) as [db |] eqn:Hdb; [| done].
  destruct (db_online db) eqn:Hon; [| done].
  by destruct (db_rows db) as [| row rows] eqn:Hrows.
Qed.

Lemma print_rates_run self stats s :
  total_files stats <> 0 -> print_rates self stats s = (inr tt, s).
Proof.
  intros Ht. unfold print_rates, when.
  destruct (0 <? successful stats) eqn:Hs; [| done].
  apply Z.ltb_lt in Hs.
  unfold bind at 1. unfold truediv at 1.
  rewrite (inject_Z_nonzero _ Ht). unfold ret at 1.
  unfold bind at 1.
  assert ((if database_enabled self && (0 <? db_stored stats)
           then rate <- truediv (Some (inject_Z (db_stored stats)))
                                (inject_Z (successful stats)) ;; ret tt
           else ret tt) s = (inr tt, s)) as ->.
  { destruct (_ && _); [| done]. unfold bind, truediv.
    by rewrite inject_Z_nonzero by lia. }
  destruct (_ && _); [| done].
  destruct (0 <? _) eqn:He; [| done]. apply Z.ltb_lt in He.
  unfold bind, truediv. by rewrite inject_Z_nonzero by lia.
Qed.

Lemma print_rates_any self stats s :
  wp (print_rates self stats) (fun _ s' => s' = s) (fun _ s' => s' = s) s.
Proof.
  unfold wp, print_rates, when, bind, truediv, ret, raise.
  repeat (match goal with
          | |- context [if ?c then _ else _] => destruct c
          end; try done).
Qed.

Lemma launches_summary_lines self t rs :
  launches (t ++ (summary_line self <$> rs)) = launches t.
Proof.
  unfold launches. rewrite List.filter_app.
  replace (List.filter is_launch (summary_line self <$> rs)) with (@nil event);
    [by rewrite app_nil_r |].
  induction rs as [| r rs IH]; [done | by simpl].
Qed.

Lemma when_storage_stats_any c h s :
  wp (when c (print_storage_stats h)) (fun _ s' => s' = s)
     (fun _ s' => s' = s) s.
Proof. destruct c; [apply print_storage_stats_any | done]. Qed.

Lemma print_summary_any self s :
  wp (print_summary self) (fun _ s' => summary_effect s s')
     (fun _ s' => summary_effect s s') s.
Proof.
  unfold print_summary.
  apply wp_bind.
  eapply wp_conseq; [apply when_storage_stats_any | | by intros ? ? ->].
  simpl. intros _ ? ->. apply wp_bind.
  eapply wp_conseq; [apply when_storage_stats_any | | by intros ? ? ->].
  simpl. intros _ ? ->. wp_step. wp_step. apply wp_bind.
  eapply wp_conseq; [apply print_rates_any | | by intros ? ? ->].
  simpl. intros _ ? ->.
  apply wp_bind. unfold wp at 1. rewrite for_each_emit.
  eapply wp_conseq; [apply save_report_spec | | done]. simpl.
  intros _ s' [Hs Hd Hl _]. simpl in *.
  constructor; [done | done |].
  by rewrite Hl, launches_summary_lines.
Qed.

Lemma print_summary_run self s :
  wf_handlers self -> stats_printable self s ->
  total_files (st_stats s) <> 0 ->
  wp (print_summary self)
     (fun _ s' =>
        report_outcome self
          (set_trace (fun t => t ++ (summary_line self <$> results (st_stats s)))
                     s) s')
     no_exn s.
Proof.
  intros [W1 W2] Hp Ht. unfold print_summary.
  assert (when (database_enabled self)
               (print_storage_stats (db_handler self)) s = (inr tt, s)) as E1.
  { unfold when. destruct (database_enabled self) eqn:He; [| done].
    destruct (W1 eq_refl) as [h Hh]. rewrite Hh.
    apply print_storage_stats_run. intros db. apply Hp.
    unfold summary_sinks. rewrite He, Hh. apply elem_of_app. left.
    by apply list_elem_of_singleton. }
  assert (when (secondary_database_enabled self)
               (print_storage_stats (db_handler_secondary self)) s
          = (inr tt, s)) as E2.
  { unfold when. destruct (secondary_database_enabled self) eqn:He; [| done].
    destruct (W2 eq_refl) as [h Hh]. rewrite Hh.
    apply print_storage_stats_run. intros db. apply Hp.
    unfold summary_sinks. rewrite He, Hh. apply elem_of_app. right.
    by apply list_elem_of_singleton. }
  apply wp_bind. eapply wp_of_eq; [exact E1 |].
  apply wp_bind. eapply wp_of_eq; [exact E2 |].
  wp_step. wp_step.
  apply wp_bind. eapply wp_of_eq; [by apply print_rates_run |].
  apply wp_bind. eapply wp_of_eq; [apply for_each_emit |].
  apply save_report_spec.
Qed.
End Summary.


Lemma stats_printable_ext `{!PyLib} self P s s' :
  stats_printable self s -> dbs_ext P (st_dbs s) (st_dbs s') ->
  stats_printable self s'.
Proof.
  intros Hp Hext h db' Hin Hdb' Hon. specialize (Hext (db_config h)).
  rewrite Hdb' in Hext.
  destruct (st_dbs s !! db_config h) as [db |] eqn:Hdb; [| done].
  destruct Hext as (Ho & extra & Hrows & _).
  rewrite Ho in Hon. specialize (Hp h db Hin Hdb Hon).
  rewrite Hrows. by destruct (db_rows db).
Qed.

Lemma wp_returns_unit (m : Py unit) (K : State -> Prop) s :
  wp m (fun _ s' => K s') no_exn s -> exists s', m s = (inr tt, s') /\ K s'.
Proof.
  intros Hwp. destruct (wp_returns _ _ _ Hwp) as ([] & s' & Heq & HK). eauto.
Qed.

Section RunTheorems.
Context `{!PyLib}.


Lemma convert_all_files_any self s :
  wp (convert_all_files self) (fun _ s' => all_files_post self s s')
     (fun e s' => all_files_post self s s'
                  \/ (e = OSError "No such file or directory"
                      /\ search_aborted self s s')) s.
Proof.
  unfold convert_all_files. wp_step. wp_step. wp_step. wp_step. wp_step.
  eapply wp_conseq; [apply find_ifc_files_spec | |]; simpl;
    [| intros e s' (-> & -> & Hex); right; by split_and!].
  intros l s' (-> & -> & _).
  change (work_items self (set_stats _ s)) with (work_items self s).
  wp_step. wp_step.
  destruct (work_items self s) as [| f files] eqn:Hd.
  - wp_step. constructor; rewrite Hd; simpl.
    + exists []. split; [by rewrite app_nil_r | done].
    + by rewrite launches_snoc, !app_nil_r.
    + done.
  - apply wp_bind.
    eapply wp_conseq; [apply process_files_spec | | done]; [done |]. simpl.
    intros _ s1 [(rs & Hrs & Hfiles & _) Hl Ht _ _ _ _]. simpl in *.
    wp_step. wp_step. wp_step. wp_step.
    assert (all_files_post self s
              (set_stats (set_end_time (st_clock s1)) s1)) as Hpost.
    { constructor; rewrite Hd; simpl; [| done | done].
      exists rs. by split. }
    assert (forall s2,
               summary_effect (set_stats (set_end_time (st_clock s1)) s1) s2 ->
               all_files_post self s s2) as Hkeep.
    { intros s2 [Hs2 _ Hl2]. destruct Hpost as [Hr Hla Hto].
      constructor; by rewrite ?Hs2, ?Hl2. }
    eapply wp_conseq; [apply print_summary_any | |]; simpl; eauto.
Qed.

(** Per-item processing never raises. *)
Lemma convert_single_file_total self ifc_file s :
  exists r s', convert_single_file self ifc_file s = (inr r, s').
Proof.
  destruct (wp_returns _ _ _ (convert_single_file_spec self ifc_file s))
    as (r & s' & Heq & _).
  eauto.
Qed.

(** [save_report] never raises. *)
Lemma save_report_total self s :
  exists s', save_report self s = (inr tt, s').
Proof.
  destruct (wp_returns _ _ _ (save_report_spec self s)) as ([] & s' & Heq & _).
  eauto.
Qed.

End RunTheorems.

(** *** The claims about one item *)

Lemma marks_exclusive (m : ConversionMetadata) :
  fallback_marked m -> ~ primary_marked m.
Proof. intros [Hv _] [Hv' _]. rewrite Hv in Hv'. discriminate. Qed.

Lemma mock_fragment_data_length (data : bytes) :
  (List.length (mock_fragment_data data) <= 1066)%nat.
Proof.
  unfold mock_fragment_data, slice_to. rewrite !length_app, length_take.
  change (List.length (b ("MOCK_FRAGMENT_HEADER" +:+ nl))) with 21%nat.
  change (List.length (b (nl +:+ "MOCK_FRAGMENT_FOOTER"))) with 21%nat.
  lia.
Qed.

Section Policy.
Context `{!PyLib}.


(** When the fallback succeeds, the artifact it wrote is the fixed
    header, the first 1024 bytes of the input at most, and the fixed
    footer, hence at most 1066 bytes; every row the call stored carries
    the metadata of the fallback, whose converter version and note no
    primary conversion uses. *)
Lemma fallback_artifact_marked self ifc_file output_file t0 s :
  exists result s',
    _fallback_mock_conversion self ifc_file output_file t0 s
    = (inr result, s')
    /\ (r_status result = "success" ->
        exists fi meta,
          st_fs s !! ifc_file = Some fi
          /\ st_fs s' !! output_file
             = Some (mkFile (b ("MOCK_FRAGMENT_HEADER" +:+ nl)
                             ++ take 1024 (f_data fi)
                             ++ b (nl +:+ "MOCK_FRAGMENT_FOOTER")) true)
          /\ (List.length (mock_fragment_data (f_data fi)) <= 1066)%nat
          /\ converter_version meta = "mock_converter_fallback"
          /\ is_Some (note meta)
          /\ ~ primary_marked meta
          /\ dbs_ext (fun row => conversion_metadata row = meta)
                     (st_dbs s) (st_dbs s')).
Proof.
  destruct (wp_returns _ _ _ (fallback_spec self ifc_file output_file t0 s))
    as (r & s' & Heq & _ & _ & _ & Hcase).
  exists r, s'. split; [done |]. intros Hok.
  destruct Hcase as [(fi & meta & fs1 & fi' & fo' & Hfi & _ & -> & Hfs & _
                      & _ & Hm & _ & _ & Hdbs) | (Hf & _)];
    [| rewrite Hf in Hok; discriminate].
  exists fi, meta. rewrite Hfs, lookup_insert_eq.
  split_and!; try done.
  - apply mock_fragment_data_length.
  - apply Hm.
  - destruct Hm as [_ ->]. eauto.
  - by apply marks_exclusive.
Qed.

(** Rows stored by a primary conversion carry the primary marks. *)
Lemma primary_rows_marked self ifc_file output_file ct s r s' :
  _process_successful_conversion self ifc_file output_file ct s = (inr r, s') ->
  exists meta,
    primary_marked meta
    /\ dbs_ext (fun row => conversion_metadata row = meta)
               (st_dbs s) (st_dbs s').
Proof.
  intros Heq.
  pose proof (wp_run _ _ _ _
                (process_successful_spec self ifc_file output_file ct s))
    as Hrun.
  rewrite Heq in Hrun. simpl in Hrun.
  destruct Hrun as (meta & _ & _ & _ & _ & Hm & _ & _ & Hfr).
  exists meta. split; [done |]. apply Hfr.
Qed.

(** C9. The compression ratio is computed without dividing by zero: the
    expression always yields a value, which is 0 for a zero-byte input;
    so the result of the primary path and of the fallback path for a
    zero-byte input records ratio 0, and neither path ends in
    [ZeroDivisionError]. *)
Theorem compression_ratio_guarded self ifc_file output_file ct t0 s fi :
  st_fs s !! ifc_file = Some fi ->
  f_data fi = [] ->
  ifc_file <> output_file ->
  (forall i o s0, compression_ratio i o s0 = (inr (ratio_value i o), s0))
  /\ (forall o, ratio_value (size_mb (len (f_data fi))) o = 0%Q)
  /\ (forall r s',
        _process_successful_conversion self ifc_file output_file ct s
        = (inr r, s') ->
        exists st, r_stats r = Some st /\ compressionRatio st = 0%Q)
  /\ (forall s',
        _process_successful_conversion self ifc_file output_file ct s
        <> (inl ZeroDivisionError, s'))
  /\ (forall r s',
        _fallback_mock_conversion self ifc_file output_file t0 s
        = (inr r, s') ->
        r_status r = "success" ->
        exists st, r_stats r = Some st /\ compressionRatio st = 0%Q)
  /\ (forall e s',
        _fallback_mock_conversion self ifc_file output_file t0 s
        <> (inl e, s')).
Proof.
  intros Hfi Hempty Hne.
  assert (forall o, ratio_value (size_mb (len (f_data fi))) o = 0%Q) as Hzero
    by (intros o; by rewrite Hempty).
  pose proof (wp_run _ _ _ _
                (process_successful_spec self ifc_file output_file ct s))
    as Hp.
  pose proof (wp_run _ _ _ _
                (fallback_spec self ifc_file output_file t0 s)) as Hf.
  split_and!.
  - apply compression_ratio_run.
  - done.
  - intros r s' Heq. rewrite Heq in Hp. simpl in Hp.
    destruct Hp as (meta & fi0 & fo & Hfi0 & _ & _ & Hratio & Hpost & _).
    rewrite Hfi in Hfi0. injection Hfi0 as <-.
    eexists. split; [apply Hpost |]. simpl. by rewrite Hratio.
  - intros s' Heq. rewrite Heq in Hp. simpl in Hp. by destruct Hp.
  - intros r s' Heq Hok. rewrite Heq in Hf. simpl in Hf.
    destruct Hf as (_ & _ & _ & [(fi0 & meta & fs1 & fi' & fo' & _ & _ & ->
                                  & _ & Hfi' & _ & _ & Hratio & Hpost & _)
                                | (Hfail & _)]);
      [| rewrite Hfail in Hok; discriminate].
    rewrite lookup_insert_ne, Hfi in Hfi' by done. injection Hfi' as <-.
    eexists. split; [apply Hpost |]. simpl. by rewrite Hratio.
  - intros e s' Heq. rewrite Heq in Hf. done.
Qed.
End Policy.

(** *** The subprocess converter *)


(** With the input present, the output directory available, an output
    path that can be examined and is no directory, and the child
    finishing in time, the outcome is a success exactly when the exit
    status is zero and the output file exists; its size is not looked
    at. *)
Lemma xfrg_success_iff self input_file output_file timeout s :
  name_too_long (str_path (Path input_file)) = false ->
  name_too_long (str_path (Path output_file)) = false ->
  is_Some (st_fs s !! Path input_file) ->
  p_parent (Path output_file) ∈ st_dirs s ->
  Path output_file ∉ dir_entries s ->
  let run := st_proc s ["node"; "--max-old-space-size=8192";
                        str_path (XFRG.converter_script self);
                        "--input"; str_path (Path input_file);
                        "--output"; str_path (Path output_file)] (st_fs s) in
  pr_launch_error run = None ->
  Qltb (inject_Z timeout) (pr_duration run) = false ->
  exists r s',
    XFRG.convert_ifc_file self input_file output_file timeout s = (inr r, s')
    /\ (r !! "success" = Some (VBool true) <->
        pr_returncode run = 0 /\ is_Some (pr_fs run !! Path output_file)).
Proof.
  intros Hni Hno Hin Hdir Hnd run Hl Hd.
  cbv [XFRG.convert_ifc_file bind time_time path_exists gets ret mkdir
         try_except subprocess_run entry_stat_size truediv is_dir].
  rewrite Hni. rewrite (bool_decide_eq_true_2 _ Hin). simpl.
  rewrite (bool_decide_eq_true_2 _ Hdir). fold run. rewrite Hl, Hd. simpl.
  rewrite Hno.
  unfold dir_entries; simpl; fold (dir_entries s).
  rewrite (bool_decide_eq_false_2 _ Hnd), orb_false_r.
  destruct (pr_returncode run =? 0) eqn:Hrc; simpl.
  - apply Z.eqb_eq in Hrc.
    destruct (pr_fs run !! Path output_file) as [f |] eqn:Hout.
    + rewrite bool_decide_eq_true_2 by eauto. simpl. rewrite Hout. simpl.
      eexists _, _. split; [reflexivity |]. split; [eauto |]. intros _.
      by vm_compute.
    + rewrite bool_decide_eq_false_2 by (by intros [? ?]). simpl.
      eexists _, _. split; [reflexivity |].
      split; [by vm_compute | by intros [_ [? ?]]].
  - apply Z.eqb_neq in Hrc.
    eexists _, _. split; [reflexivity |].
    split; [by vm_compute | by intros [? _]].
Qed.

(** A child that outlives the timeout yields the timeout failure. *)
Lemma xfrg_timeout_is_failure self input_file output_file timeout s :
  name_too_long (str_path (Path input_file)) = false ->
  is_Some (st_fs s !! Path input_file) ->
  p_parent (Path output_file) ∈ st_dirs s ->
  let run := st_proc s ["node"; "--max-old-space-size=8192";
                        str_path (XFRG.converter_script self);
                        "--input"; str_path (Path input_file);
                        "--output"; str_path (Path output_file)] (st_fs s) in
  pr_launch_error run = None ->
  Qltb (inject_Z timeout) (pr_duration run) = true ->
  exists r s',
    XFRG.convert_ifc_file self input_file output_file timeout s = (inr r, s')
    /\ r !! "success" = Some (VBool false)
    /\ r !! "timeout" = Some (VInt timeout)
    /\ r !! "error" = Some (VStr ("Conversion timed out after "
                                  +:+ str_Z timeout +:+ " seconds")).
Proof.
  intros Hni Hin Hdir run Hl Hd.
  cbv [XFRG.convert_ifc_file bind time_time path_exists gets ret mkdir
         try_except subprocess_run entry_stat_size truediv is_dir].
  rewrite Hni. rewrite (bool_decide_eq_true_2 _ Hin). simpl.
  rewrite (bool_decide_eq_true_2 _ Hdir). fold run. rewrite Hl, Hd. simpl.
  eexists _, _. split; [reflexivity |]. by vm_compute.
Qed.

(** *** The worker stage of [convert_single_file] *)

Section WorkerStage.
Context `{!PyLib}.

(** A zero exit status with a missing or empty output is a failure of the
    worker: the item goes to the fallback. *)
Lemma empty_output_falls_back self ifc_file s :
  let run := worker_run self ifc_file s in
  pr_launch_error run = None ->
  Qltb (inject_Z 30) (pr_duration run) = false ->
  pr_returncode run = 0 ->
  (forall f, pr_fs run !! output_of self ifc_file = Some f -> f_data f = []) ->
  convert_single_file self ifc_file s
  = _fallback_mock_conversion self ifc_file (output_of self ifc_file)
      (st_clock s)
      (set_trace
         (fun t => t ++ [LogConverterFailed (p_name ifc_file)
                           (Exception "Output file not created or is empty")])
         (after_worker self ifc_file (pr_duration run) s)).
Proof.
  intros run Hl Hd Hrc Hout.
  cbv [convert_single_file bind time_time exists_ gets ret try_except
         subprocess_run stat_size raise emit modify].
  unfold worker_run, launch_of in run. fold run. rewrite Hl, Hd. simpl.
  rewrite Hrc. simpl.
  unfold output_of, joinpath in Hout.
  destruct (pr_fs run !! _) as [f |] eqn:Hf.
  - rewrite bool_decide_eq_true_2 by eauto. simpl.
    fold (joinpath (target_dir self) (stem ifc_file +:+ ".frag")) in Hf.
    unfold joinpath in Hf |- *. rewrite Hf. simpl.
    by rewrite (Hout f eq_refl).
  - rewrite bool_decide_eq_false_2 by (by intros [? ?]). done.
Qed.

(** A worker that outlives its timeout never reaches the primary path:
    the item goes to the fallback. *)
Lemma timeout_falls_back self ifc_file s :
  let run := worker_run self ifc_file s in
  pr_launch_error run = None ->
  Qltb (inject_Z 30) (pr_duration run) = true ->
  convert_single_file self ifc_file s
  = _fallback_mock_conversion self ifc_file (output_of self ifc_file)
      (st_clock s)
      (set_trace (fun t => t ++ [LogTimedOut (p_name ifc_file)])
                 (after_worker self ifc_file (inject_Z 30) s)).
Proof.
  intros run Hl Hd.
  cbv [convert_single_file bind time_time exists_ gets ret try_except
         subprocess_run stat_size raise emit modify].
  unfold worker_run, launch_of in run. fold run. by rewrite Hl, Hd.
Qed.
End WorkerStage.

Section Constructor.
Context `{!PyLib}.

(** The constructor enables a sink exactly when it built its handle. *)
Lemma new_converter_spec script_dir path_F1_CO PjName PjDomain loc qgn hub
    package_dir executable s :
  wp (new_converter script_dir path_F1_CO PjName PjDomain loc qgn hub
                    package_dir executable)
     (fun self _ => wf_handlers self) (fun _ _ => True) s.
Proof.
  unfold new_converter, new_handler.
  apply wp_bind. unfold wp at 1.
  destruct (mkdir _ s) as [[e | []] s0]; [done |].
  wp_steps; try done;
    (split; simpl; intros Hb; by apply bool_decide_eq_true_1 in Hb).
Qed.

(** [run] turns every exception into the answer [False]. *)
Lemma run_never_raises self s :
  exists ok s', run self s = (inr ok, s').
Proof.
  unfold run, try_except.
  destruct (bind _ _ s) as [[e | ok] s']; unfold ret; eauto.
Qed.
End Constructor.

(** *** Further properties of [FragmentsBYTEAHandler] *)

Lemma wp_and {A} (m : Py A) (K1 K2 : A -> State -> Prop)
    (E1 E2 : exn -> State -> Prop) s :
  wp m K1 E1 s -> wp m K2 E2 s ->
  wp m (fun a s' => K1 a s' /\ K2 a s') (fun e s' => E1 e s' /\ E2 e s') s.
Proof. unfold wp. by destruct (m s) as [[e | a] s']. Qed.

(** Rules for library calls whose outcome is known. *)
Lemma wp_read_bytes_ok p f (K : bytes -> State -> Prop) E s :
  st_fs s !! p = Some f -> f_readable f = true ->
  K (f_data f) s -> wp (read_bytes p) K E s.
Proof. intros Hf Hr HK. unfold wp, read_bytes. by rewrite Hf, Hr. Qed.

Lemma wp_stat_size_ok p f (K : Z -> State -> Prop) E s :
  st_fs s !! p = Some f -> K (len (f_data f)) s -> wp (stat_size p) K E s.
Proof. intros Hf HK. unfold wp, stat_size. by rewrite Hf. Qed.

Lemma wp_write_bytes_ok p data (K : unit -> State -> Prop) E s :
  p_parent p ∈ st_dirs s -> st_readonly s = false ->
  K tt (set_fs (insert p (mkFile data true)) s) ->
  wp (write_bytes p data) K E s.
Proof.
  intros Hd Hro HK. unfold wp, write_bytes.
  by rewrite bool_decide_eq_true_2, Hro.
Qed.


Lemma mkdir_run d s :
  (exists msg, mkdir d s = (inl (OSError msg), s) /\ d ∉ st_dirs s)
  \/ (mkdir d s = (inr tt, s) /\ d ∈ st_dirs s)
  \/ (mkdir d s = (inr tt, set_dirs (fun ds => made_dirs d ∪ ds) s)
      /\ (d ∉ st_dirs s) /\ st_readonly s = false).
Proof.
  unfold mkdir. case_bool_decide; [by right; left |].
  case_bool_decide; [left; eauto |].
  destruct (existsb _ _); [left; eauto |].
  destruct (st_readonly s) eqn:Hro; [left; eauto | by right; right].
Qed.



Lemma wp_unlink p (K : unit -> State -> Prop) (E : exn -> State -> Prop) s :
  (forall f, st_fs s !! p = Some f -> st_readonly s = false ->
             K tt (set_fs (delete p) s)) ->
  (st_fs s !! p = None \/ st_readonly s = true ->
   forall msg, E (OSError msg) s) ->
  wp (unlink p) K E s.
Proof.
  intros HK HE. unfold wp, unlink.
  destruct (st_fs s !! p) as [f |] eqn:Hf; [| apply HE; by left].
  destruct (st_readonly s) eqn:Hro; [apply HE; by right | by apply (HK f)].
Qed.

Lemma wp_get_connection_failed self (K : Database -> State -> Prop)
    (E : exn -> State -> Prop) s :
  (forall db, st_dbs s !! db_config self = Some db -> db_online db = true ->
              K db s) ->
  E (DatabaseError "connection failed") s ->
  wp (get_connection self) K E s.
Proof.
  intros HK HE. unfold wp, get_connection.
  destruct (st_dbs s !! db_config self) as [db |] eqn:Hdb; [| apply HE].
  destruct (db_online db) eqn:Hon; [by apply HK | apply HE].
Qed.

Lemma find_none_existsb {A} (p : A -> bool) l :
  List.find p l = None -> existsb p l = false.
Proof.
  induction l as [| x l IH]; [done |]. simpl. destruct (p x); [done | exact IH].
Qed.

Lemma find_none_Forall (rows : list Row) hash :
  List.find (fun r => String.eqb (file_hash r) hash) rows = None ->
  Forall (fun r => file_hash r <> hash) rows.
Proof.
  intros Hf. apply Forall_forall. intros r Hin Heq.
  apply list_elem_of_In in Hin. apply (find_none _ _ Hf) in Hin.
  by rewrite Heq, String.eqb_refl in Hin.
Qed.

Section HandlerProperties.
Context `{!PyLib}.

Lemma store_fragment_outcome_spec self fragment_file ifc_source meta s :
  wp (store_fragment self fragment_file ifc_source meta)
     (fun ok s' => store_outcome self fragment_file ifc_source meta s ok s')
     no_exn s.
Proof.
  unfold store_fragment, calculate_file_hash, select_id_by_hash,
    insert_fragment.
  repeat first
    [ apply wp_get_connection_failed; [intros ? ? ? |]; simpl in *
    | wp_step ].
  all: unfold store_outcome; simpl; simplify_eq.
  all: try (split; [reflexivity |]; rewrite <- ?app_assoc;
            eexists _, _; split; [reflexivity |]; split; [reflexivity |];
            discriminate).
  - match goal with
    | Hf : row_id <$> List.find ?p ?l = Some _ |- _ =>
        destruct (List.find p l) as [r |] eqn:Hfind; [| done];
        apply find_some in Hfind as [Hin Heq]
    end.
    apply String.eqb_eq in Heq. apply list_elem_of_In in Hin.
    eexists _, _. split_and!; try done. left. by exists r.
  - match goal with
    | Hf : row_id <$> List.find ?p ?l = None, He : existsb _ _ = true |- _ =>
        destruct (List.find p l) as [r |] eqn:Hfind; [done |];
        apply find_none_existsb in Hfind; congruence
    end.
  - match goal with
    | Hf : row_id <$> List.find ?p ?l = None, Hon : db_online _ = true |- _ =>
        destruct (List.find p l) as [r |] eqn:Hfind; [done |];
        apply find_none_Forall in Hfind; rewrite Hon
    end.
    eexists _, _. split_and!; try done. by right.
Qed.

(** X1. [store_fragment] never raises: every failure is caught, logged
    and answered with [False].  Whatever it answers, it leaves the file
    system, the directories, the clock and the converter's statistics as
    they were and launches nothing; the sinks only gain rows, and only
    rows carrying the metadata passed.  When it answers [False] no sink
    has changed and the last record logged is the store error. *)
Theorem store_fragment_contained self fragment_file ifc_source meta s :
  exists ok s',
    store_fragment self fragment_file ifc_source meta s = (inr ok, s')
    /\ st_fs s' = st_fs s /\ st_dirs s' = st_dirs s
    /\ st_clock s' = st_clock s /\ st_stats s' = st_stats s
    /\ launches (st_trace s') = launches (st_trace s)
    /\ dbs_ext (fun r => conversion_metadata r = meta) (st_dbs s) (st_dbs s')
    /\ (ok = false ->
        st_dbs s' = st_dbs s
        /\ exists e, last (st_trace s')
                     = Some (LogStoreError (p_name fragment_file) e)).
Proof.
  destruct (wp_returns _ _ _
              (store_fragment_spec self fragment_file ifc_source meta s))
    as (ok & s' & Heq & Heff).
  pose proof (wp_run _ _ _ _
                (store_fragment_outcome_spec self fragment_file ifc_source
                   meta s)) as Hout.
  rewrite Heq in Hout. simpl in Hout.
  exists ok, s'. split; [done |].
  pose proof (store_effect_launches _ _ _ Heff) as Hl.
  destruct Heff as [Hfs Hd _ _ Hc _ Hst _ Hdbs].
  split_and!; try done.
  intros ->. destruct Hout as (Hsame & evs & e & Htr & Hlast & _).
  split; [done |]. exists e. rewrite Htr.
  destruct evs as [| ev evs]; [done |]. by rewrite last_app, Hlast.
Qed.

(** X2. Store, then look up.  After [store_fragment] answered [True],
    the sink holds a row with the content hash of the file, and the
    [SELECT] by that hash finds it.  Either the sink is as it was (the
    hash was already there), or no row had that hash and exactly one row
    was appended: the next id, the file's name, hash, bytes and size, the
    source name and the metadata passed. *)
Theorem store_fragment_then_found self fragment_file ifc_source meta s s' :
  store_fragment self fragment_file ifc_source meta s = (inr true, s') ->
  exists f db db',
    st_fs s !! fragment_file = Some f
    /\ st_dbs s !! db_config self = Some db
    /\ st_dbs s' !! db_config self = Some db'
    /\ (exists row, row ∈ db_rows db'
                    /\ file_hash row = content_hash (f_data f))
    /\ (exists id, (select_id_by_hash self (content_hash (f_data f)) s').1
                   = inr (Some id))
    /\ (db' = db
        \/ (Forall (fun r => file_hash r <> content_hash (f_data f))
                   (db_rows db)
            /\ db_rows db' =
               db_rows db ++ [mkRow (db_next_id db) (p_name fragment_file)
                                    (content_hash (f_data f)) (f_data f)
                                    (len (f_data f)) ifc_source meta]
            /\ db_next_id db' = db_next_id db + 1)).
Proof.
  intros Heq.
  pose proof (wp_run _ _ _ _
                (store_fragment_outcome_spec self fragment_file ifc_source
                   meta s)) as Hout.
  rewrite Heq in Hout. simpl in Hout.
  destruct Hout as (f & db & Hf & _ & Hdb & Hon & Hcase).
  assert (forall db' row,
             st_dbs s' !! db_config self = Some db' -> db_online db' = true ->
             row ∈ db_rows db' -> file_hash row = content_hash (f_data f) ->
             exists id, (select_id_by_hash self (content_hash (f_data f)) s').1
                        = inr (Some id)) as Hsel.
  { intros db' row Hdb' Hon' Hin Hh.
    destruct (find_hash_some _ _ _ Hin Hh) as [r Hfind].
    exists (row_id r).
    cbv [select_id_by_hash bind get_connection emit modify ret].
    rewrite Hdb', Hon'. simpl. by rewrite Hfind. }
  destruct Hcase as [(row & Hin & Hh & Hsame) | (Hnew & Hins)].
  - exists f, db, db. rewrite Hsame. split_and!; try done.
    + by exists row.
    + rewrite Hsame in Hsel. by apply (Hsel db row).
    + by left.
  - eexists f, db, _. rewrite Hins, lookup_insert_eq.
    assert (stored_row db fragment_file (f_data f) ifc_source meta
              ∈ db_rows db
                ++ [stored_row db fragment_file (f_data f) ifc_source meta])
      as Hin by (apply elem_of_app; right; by apply list_elem_of_singleton).
    split_and!; try done.
    + eexists. split; [exact Hin | done].
    + apply (Hsel (mkDb true
                     (db_rows db
                      ++ [stored_row db fragment_file (f_data f) ifc_source
                                     meta])
                     (db_next_id db + 1))
                  (stored_row db fragment_file (f_data f) ifc_source meta));
        [by rewrite Hins, lookup_insert_eq | done | exact Hin | done].
    + right. by split_and!.
Qed.

(** X3. [store_fragment] keeps the content hashes of every sink
    unique, and a failure it logs is never a violation of the [UNIQUE]
    constraint: the [SELECT] before the [INSERT] rules that out. *)
Theorem store_fragment_keeps_hashes_unique self fragment_file ifc_source meta
    s :
  hashes_unique (st_dbs s) ->
  exists ok s',
    store_fragment self fragment_file ifc_source meta s = (inr ok, s')
    /\ hashes_unique (st_dbs s')
    /\ (ok = false ->
        exists e,
          last (st_trace s') = Some (LogStoreError (p_name fragment_file) e)
          /\ e <> DatabaseError
                    "duplicate key value violates unique constraint").
Proof.
  intros Hu.
  destruct (wp_returns _ _ _
              (store_fragment_outcome_spec self fragment_file ifc_source
                 meta s)) as (ok & s' & Heq & Hout).
  exists ok, s'. split; [done |].
  split.
  - destruct ok; simpl in Hout.
    + destruct Hout as (f & db & Hf & _ & Hdb & Hon & Hcase).
      destruct Hcase as [(row & _ & _ & Hsame) | (Hnew & Hins)];
        [by rewrite Hsame |].
      rewrite Hins. intros k db' Hk.
      destruct (decide (db_config self = k)) as [<- | Hne].
      * rewrite lookup_insert_eq in Hk. injection Hk as <-. simpl.
        rewrite fmap_app. apply NoDup_app. split_and!.
        -- by apply (Hu (db_config self)).
        -- intros h Hin Hin'. simpl in Hin'.
           apply list_elem_of_singleton in Hin'. subst h.
           apply list_elem_of_fmap in Hin as (r & Hr & Hin).
           rewrite Forall_forall in Hnew. by apply (Hnew r Hin).
        -- simpl. apply NoDup_singleton.
      * rewrite lookup_insert_ne in Hk by done. by apply (Hu k).
    + destruct Hout as (Hsame & _). by rewrite Hsame.
  - intros ->. destruct Hout as (_ & evs & e & Htr & Hlast & Hne).
    exists e. split; [| done]. rewrite Htr.
    destruct evs as [| ev evs]; [done |]. by rewrite last_app, Hlast.
Qed.

(** X4. After [store_fragment] answered [True], [get_storage_stats]
    on the same sink returns the row count, at least 1, and the sum of
    the sizes, which is a number and not [None]; so the storage block of
    the summary prints without raising. *)
Theorem storage_stats_after_store self fragment_file ifc_source meta s s' :
  store_fragment self fragment_file ifc_source meta s = (inr true, s') ->
  exists db' total,
    st_dbs s' !! db_config self = Some db'
    /\ get_storage_stats self s'
       = (inr (Some (mkStorageStats (len (db_rows db')) (Some total))), s')
    /\ total = foldr Z.add 0 (file_size_bytes <$> db_rows db')
    /\ 1 <= len (db_rows db')
    /\ print_storage_stats (Some self) s' = (inr tt, s').
Proof.
  intros Heq.
  pose proof (wp_run _ _ _ _
                (store_fragment_outcome_spec self fragment_file ifc_source
                   meta s)) as Hout.
  rewrite Heq in Hout. simpl in Hout.
  destruct Hout as (f & db & Hf & _ & Hdb & Hon & Hcase).
  assert (exists db', st_dbs s' !! db_config self = Some db'
                      /\ db_online db' = true /\ db_rows db' <> [])
    as (db' & Hdb' & Hon' & Hne).
  { destruct Hcase as [(row & Hin & _ & Hsame) | (_ & Hins)].
    - exists db. rewrite Hsame. split_and!; try done.
      intros Hnil. rewrite Hnil in Hin. by apply elem_of_nil in Hin.
    - eexists. rewrite Hins, lookup_insert_eq. split_and!; try done.
      simpl. by destruct (db_rows db). }
  exists db', (foldr Z.add 0 (file_size_bytes <$> db_rows db')).
  assert (get_storage_stats self s'
          = (inr (Some (mkStorageStats (len (db_rows db'))
                          (Some (foldr Z.add 0
                                   (file_size_bytes <$> db_rows db'))))), s'))
    as Hstats.
  { cbv [get_storage_stats try_except bind get_connection ret].
    rewrite Hdb', Hon'. by destruct (db_rows db'). }
  split_and!; try done.
  - unfold len. destruct (db_rows db'); [done | simpl; lia].
  - apply print_storage_stats_run. intros db0 Hdb0 _. congruence.
Qed.
End HandlerProperties.

(** *** Further properties of the summary and the report *)

Section SummaryProperties.
Context `{!PyLib}.

(** X5. With the primary sink enabled and reachable and its table empty,
    [print_summary] raises [TypeError]: the sum over no rows is [None]
    and is divided by [1024 * 1024].  The report is not saved: the files,
    the sinks and the statistics are as they were. *)
Theorem print_summary_raises_on_empty_sink self s h db :
  database_enabled self = true ->
  db_handler self = Some h ->
  st_dbs s !! db_config h = Some db ->
  db_online db = true ->
  db_rows db = [] ->
  exists s',
    print_summary self s
    = (inl (TypeError "unsupported operand type(s) for /"), s')
    /\ st_fs s' = st_fs s /\ st_dbs s' = st_dbs s
    /\ st_stats s' = st_stats s.
Proof.
  intros Hen Hh Hdb Hon Hrows. exists s. split; [| done].
  unfold print_summary. rewrite Hen, Hh. unfold when at 1.
  unfold bind at 1.
  cbv [print_storage_stats get_storage_stats try_except bind get_connection
         ret truediv raise].
  by rewrite Hdb, Hon, Hrows.
Qed.

(** X6. [save_report] never raises and touches neither the statistics
    nor the sinks.  When the log directory exists and the file system is
    writable it writes the report of the current statistics to
    [conversion_report_<timestamp>.json] there and logs it; otherwise it
    writes nothing and logs the failure. *)
Theorem save_report_writes_or_logs self s :
  exists s',
    save_report self s = (inr tt, s')
    /\ st_stats s' = st_stats s /\ st_dbs s' = st_dbs s
    /\ st_dirs s' = st_dirs s
    /\ if bool_decide (log_dir self ∈ st_dirs s) && negb (st_readonly s)
       then st_fs s' = <[report_file_of self (st_clock s) :=
                          mkFile (json_dump (report_of self s)) true]> (st_fs s)
            /\ st_trace s' =
               st_trace s ++ [LogReportSaved (report_file_of self (st_clock s))]
       else st_fs s' = st_fs s
            /\ exists msg,
                st_trace s' = st_trace s ++ [LogCouldNotSaveReport (OSError msg)].
Proof.
  cbv [save_report bind time_time gets try_except write_bytes joinpath emit
         modify ret]. simpl.
  destruct (decide (log_dir self ∈ st_dirs s)) as [Hin | Hnin].
  - rewrite (bool_decide_eq_true_2 _ Hin).
    destruct (st_readonly s) eqn:Hro; simpl; eexists;
      (split; [reflexivity |]); simpl; split_and!; eauto.
  - rewrite (bool_decide_eq_false_2 _ Hnin). simpl. eexists.
    (split; [reflexivity |]); simpl; split_and!; eauto.
Qed.

End SummaryProperties.

(** *** Further properties of [validate_environment] and [run] *)

Section RunProperties.
Context `{!PyLib}.

Lemma validate_environment_run self s :
  exists ok s',
    validate_environment self s = (inr ok, s')
    /\ (ok = true -> environment_ok self s /\ target_dir self ∈ st_dirs s')
    /\ (ok = false -> s' = s)
    /\ (s' = s
        \/ s' = set_dirs (fun ds => made_dirs (target_dir self) ∪ ds) s).
Proof.
  unfold environment_ok.
  cbv [validate_environment bind dir_exists gets exists_ ret try_except].
  repeat (match goal with
          | |- context [bool_decide ?P] =>
              destruct (decide P);
              [ rewrite (bool_decide_eq_true_2 P) by done
              | rewrite (bool_decide_eq_false_2 P) by done ]; simpl
          end);
    try (destruct (mkdir_run (target_dir self) s)
           as [(msg & -> & ?) | [[-> ?] | (-> & ? & Hro)]]; simpl);
    eexists _, _; (split; [reflexivity |]); simpl.
  all: split_and!; try done; try (intros _); auto.
  all: split_and!; auto.
  all: unfold made_dirs;
    apply elem_of_union_l, elem_of_union_l, elem_of_singleton; done.
Qed.





Lemma convert_all_files_empty self s :
  work_items self s = [] ->
  convert_all_files self s
  = (inr tt,
     set_trace (fun t => t ++ [LogNoFiles])
       (set_stats (set_total_files 0)
          (set_stats (set_start_time (st_clock s)) s))).
Proof.
  intros Hnone. unfold convert_all_files.
  unfold bind at 1. unfold time_time at 1, gets at 1.
  unfold bind at 1. unfold modify at 1.
  unfold bind at 1. rewrite find_ifc_files_empty; [done |].
  exact Hnone.
Qed.

(** X9. When [run] answers [True] and the search found no work item, no
    worker was launched, no file was written (no report either), no sink
    was touched, and the statistics hold no result and count no file. *)
Theorem run_without_items self s s' :
  run self s = (inr true, s') ->
  discovered self s = [] ->
  launches (st_trace s') = launches (st_trace s)
  /\ st_fs s' = st_fs s /\ st_dbs s' = st_dbs s
  /\ results (st_stats s') = results (st_stats s)
  /\ total_files (st_stats s') = 0.
Proof.
  intros Hrun Hnone.
  destruct (validate_environment_run self s)
    as (ok & s1 & Heq & _ & _ & Hcase).
  unfold discovered in Hnone. rewrite Heq in Hnone. simpl in Hnone.
  unfold run, try_except, bind at 1 in Hrun. rewrite Heq in Hrun.
  destruct ok; simpl in Hrun; [| discriminate Hrun].
  unfold bind in Hrun. rewrite (convert_all_files_empty self s1 Hnone) in Hrun.
  injection Hrun as <-. simpl. rewrite launches_snoc, app_nil_r.
  by destruct Hcase as [-> | ->].
Qed.


End RunProperties.

(** *** Further properties of processing one item *)

Ltac stats_rewrite :=
  repeat match goal with
         | H : store_effect _ _ ?s1 |- context [st_stats ?s1] =>
             rewrite (se_stats _ _ _ H); simpl
         end.

Section ItemProperties.
Context `{!PyLib}.


Lemma fallback_succeeds self ifc_file output_file t0 s :
  wf_handlers self ->
  item_io_ok ifc_file output_file s ->
  wp (_fallback_mock_conversion self ifc_file output_file t0)
     (fun r s' => r_status r = "success"
                  /\ is_Some (st_fs s' !! output_file))
     no_exn s.
Proof.
  intros Hwf ([f [Hf Hr]] & Hdir & Hro).
  unfold _fallback_mock_conversion.
  wp_step. wp_step. wp_step. wp_step.
  eapply wp_read_bytes_ok; [exact Hf | exact Hr |].
  wp_step.
  apply wp_write_bytes_ok; [done | done |].
  assert (exists f', <[output_file := mkFile (mock_fragment_data (f_data f)) true]>
                       (st_fs s) !! ifc_file = Some f') as [f' Hf'].
  { destruct (decide (output_file = ifc_file)) as [-> | Hne].
    - rewrite lookup_insert_eq. eauto.
    - rewrite lookup_insert_ne by done. eauto. }
  wp_step. wp_step. wp_step.
  eapply wp_stat_size_ok; [exact Hf' |].
  wp_step. wp_step. wp_step.
  eapply wp_stat_size_ok; [apply lookup_insert_eq |].
  wp_step. wp_step. wp_step. apply wp_compression_ratio.
  wp_step. wp_step. wp_step. wp_step.
  eapply wp_conseq; [apply store_result_spec | |]; simpl.
  - intros r s' [Hpost Hfr]. split; [apply Hpost |].
    rewrite (sf_fs _ _ _ Hfr). simpl. rewrite lookup_insert_eq. eauto.
  - intros e s' (_ & Hnwf & _). done.
Qed.

Ltac to_fallback Hwf :=
  wp_steps;
  (eapply wp_conseq;
   [ apply fallback_succeeds; [exact Hwf | unfold item_io_ok; simpl; eauto]
   | simpl; done | done ]).

Lemma convert_single_file_succeeds self ifc_file s :
  wf_handlers self ->
  item_io_ok ifc_file (output_of self ifc_file) s ->
  (exists f, pr_fs (worker_run self ifc_file s) !! ifc_file = Some f
             /\ f_readable f = true) ->
  wp (convert_single_file self ifc_file)
     (fun r s' => r_status r = "success"
                  /\ is_Some (st_fs s' !! output_of self ifc_file))
     no_exn s.
Proof.
  intros Hwf (Hin & Hdir & Hro) Hafter.
  unfold worker_run, launch_of in Hafter. unfold output_of in *.
  unfold convert_single_file.
  wp_step. wp_step. wp_step. wp_step. wp_step. wp_step.
  apply wp_subprocess_run; simpl.
  - intros msg _. to_fallback Hwf.
  - intros t [= <-] _ _. to_fallback Hwf.
  - intros _ _. wp_steps.
    all: try to_fallback Hwf.
    eapply wp_conseq; [apply process_successful_spec | |]; simpl.
    + intros r s' (meta & fi & fo & _ & Hfo & _ & _ & Hpost & Hfr).
      split; [apply Hpost |]. rewrite (sf_fs _ _ _ Hfr). simpl. eauto.
    + intros e s' (_ & [-> | (Hnwf & _)]); [| done].
      destruct e; to_fallback Hwf.
Qed.

Lemma store_result_counts self ifc_file output_file ct meta s :
  wp (_store_fragment_and_return_result self ifc_file output_file ct meta)
     (fun r s' => primary_counts self r (st_stats s) (st_stats s'))
     (fun _ _ => True) s.
Proof.
  unfold _store_fragment_and_return_result.
  repeat first
    [ wp_step
    | eapply wp_conseq;
      [apply call_store_spec | intros ? ? ? | intros ? ? (-> & ? & ->)];
      simpl ].
  all: try exact I.
  all: unfold primary_counts; simpl; stats_rewrite;
    repeat match goal with
           | H : _ = true |- _ => rewrite H
           | H : _ = false |- _ => rewrite H
           end; simpl; split_and!; lia.
Qed.

Lemma process_successful_counts self ifc_file output_file ct s :
  wp (_process_successful_conversion self ifc_file output_file ct)
     (fun r s' => primary_counts self r (st_stats s) (st_stats s'))
     (fun _ _ => True) s.
Proof.
  unfold _process_successful_conversion.
  repeat first [ wp_step | apply wp_compression_ratio ]; try exact I.
  apply store_result_counts.
Qed.

Lemma fallback_counts self ifc_file output_file t0 s :
  wp (_fallback_mock_conversion self ifc_file output_file t0)
     (fun r s' => r_status r = "success" ->
                  primary_counts self r (st_stats s) (st_stats s'))
     no_exn s.
Proof.
  unfold _fallback_mock_conversion.
  repeat first [ wp_step | apply wp_compression_ratio ]; try (by intros [=]).
  eapply wp_conseq; [apply store_result_counts | |]; simpl.
  - by intros r s' Hc _.
  - intros e s' _. wp_steps. by intros [=].
Qed.

Ltac fallback_counted :=
  wp_steps;
  (eapply wp_conseq;
   [apply fallback_counts | intros ? ? Hc; exact Hc | done]).

Lemma convert_single_file_counts self ifc_file s :
  wf_handlers self ->
  wp (convert_single_file self ifc_file)
     (fun r s' => r_status r = "success" ->
                  primary_counts self r (st_stats s) (st_stats s'))
     no_exn s.
Proof.
  intros Hwf. unfold convert_single_file.
  wp_step. wp_step. wp_step. wp_step. wp_step. wp_step.
  apply wp_subprocess_run; simpl.
  - intros msg _. fallback_counted.
  - intros t [= <-] _ _. fallback_counted.
  - intros _ _. wp_steps.
    all: try fallback_counted.
    eapply wp_conseq;
      [apply (wp_and _ _ _ _ _ _
                (process_successful_spec self ifc_file _ _ _)
                (process_successful_counts self ifc_file _ _ _)) | |]; simpl.
    + by intros r s' [_ Hc] _.
    + intros e s' [(_ & [-> | (Hnwf & _)]) _]; [| done].
      destruct e; fallback_counted.
Qed.

Lemma tally_refl self st : tally self 0 st st.
Proof.
  unfold tally. destruct (database_enabled self),
    (secondary_database_enabled self); lia.
Qed.

Lemma tally_trans self a b st0 st1 st2 :
  tally self a st0 st1 -> tally self b st1 st2 -> tally self (a + b) st0 st2.
Proof.
  unfold tally. destruct (database_enabled self),
    (secondary_database_enabled self); lia.
Qed.

Lemma item_tally self ifc_file L s r s' :
  wf_handlers self ->
  item_post self ifc_file L s r s' ->
  (r_status r = "success" ->
   primary_counts self r (st_stats s) (st_stats s')) ->
  tally self 1 (st_stats s) (count_status r (append_result r (st_stats s'))).
Proof.
  intros Hwf [_ Hst _ _ Hok Hko] Hc. unfold count_status.
  destruct Hst as [Hs | Hf].
  - rewrite Hs. simpl.
    destruct (Hok Hwf Hs) as (meta & [_ _ _ Hprim Hsnd _ Hcnt Hcd]).
    destruct (Hc Hs) as (H1 & H2 & H3 & H4 & H5).
    unfold tally, may_attempt_secondary in *. simpl.
    destruct (database_enabled self), (secondary_database_enabled self),
      (r_db_stored r), (r_db_stored_secondary r); simpl in *;
      try (specialize (Hprim eq_refl)); try (specialize (Hsnd eq_refl));
      try discriminate; lia.
  - rewrite Hf. simpl.
    destruct (Hko Hwf Hf) as (_ & _ & _ & -> & _).
    unfold tally. simpl.
    destruct (database_enabled self), (secondary_database_enabled self); lia.
Qed.

Lemma process_files_tally self total files : forall i s,
  wf_handlers self -> total <> 0 ->
  wp (process_files self total i files)
     (fun _ s' => tally self (len files) (st_stats s) (st_stats s')) no_exn s.
Proof.
  induction files as [| f files IH]; intros i s Hwf Ht; simpl.
  - apply tally_refl.
  - apply wp_bind.
    eapply wp_conseq;
      [apply (wp_and _ _ _ _ _ _ (convert_single_file_spec self f s)
                (convert_single_file_counts self f s Hwf)) | | by intros ? ? []].
    simpl. intros r s1 [Hitem Hc].
    wp_step. wp_step. wp_step. wp_step. wp_step.
    apply wp_truediv; [by apply inject_Z_nonzero |].
    eapply wp_conseq; [apply (IH (i + 1) _ Hwf Ht) | | done]; simpl.
    intros _ s2 Hrest.
    replace (len (f :: files)) with (1 + len files)
      by (unfold len; simpl; lia).
    eapply tally_trans; [| exact Hrest].
    by eapply item_tally.
Qed.

Lemma convert_all_files_tally self s :
  wf_handlers self ->
  wp (convert_all_files self)
     (fun _ s' => tally self (len (work_items self s)) (st_stats s)
                        (st_stats s'))
     (fun e s' => e = OSError "No such file or directory"
                  \/ tally self (len (work_items self s)) (st_stats s)
                           (st_stats s')) s.
Proof.
  intros Hwf.
  unfold convert_all_files. wp_step. wp_step. wp_step. wp_step. wp_step.
  eapply wp_conseq; [apply find_ifc_files_spec | |]; simpl;
    [| intros e s' (_ & -> & _); by left].
  intros l s' (-> & -> & _).
  change (work_items self (set_stats _ s)) with (work_items self s).
  wp_step. wp_step.
  destruct (work_items self s) as [| f files] eqn:Hd.
  - wp_step. apply (tally_refl self (st_stats s)).
  - apply wp_bind.
    eapply wp_conseq; [by apply process_files_tally | | done]. simpl.
    intros _ s1 Ht.
    wp_step. wp_step. wp_step. wp_step.
    eapply wp_conseq; [apply print_summary_any | |]; simpl.
    + intros _ s2 [Hs2 _ _]. rewrite Hs2. exact Ht.
    + intros e s2 [Hs2 _ _]. right. rewrite Hs2. exact Ht.
Qed.

(** X13. When [convert_all_files], started with fresh statistics,
    returns, or raises the [TypeError] of the summary, its counters are
    consistent: every work item is counted as successful or failed and
    none as skipped; the primary sink stored or failed once per successful
    item when it is enabled and was never tried otherwise; the secondary
    sink stored or failed once per eligible item.  So no rate the summary
    prints exceeds 100%. *)
Theorem run_counters_consistent self s out s' :
  wf_handlers self ->
  st_stats s = init_stats ->
  convert_all_files self s = (out, s') ->
  out = inr tt \/ (exists msg, out = inl (TypeError msg)) ->
  let st := st_stats s' in
  let eligible :=
    if database_enabled self then db_stored st else successful st in
  total_files st = len (work_items self s)
  /\ successful st + failed st = total_files st
  /\ skipped st = 0
  /\ 0 <= successful st /\ 0 <= failed st
  /\ 0 <= db_stored st <= successful st
  /\ 0 <= db_failed st
  /\ db_stored st + db_failed st
     = (if database_enabled self then successful st else 0)
  /\ 0 <= db_stored_secondary st <= eligible
  /\ 0 <= db_failed_secondary st
  /\ db_stored_secondary st + db_failed_secondary st
     = (if secondary_database_enabled self then eligible else 0).
Proof.
  intros Hwf Hinit Heq Hout.
  pose proof (wp_run _ _ _ _
                (wp_and _ _ _ _ _ _ (convert_all_files_any self s)
                   (convert_all_files_tally self s Hwf))) as Hrun.
  rewrite Heq in Hrun. simpl in Hrun.
  assert (all_files_post self s s'
          /\ tally self (len (work_items self s)) (st_stats s) (st_stats s'))
    as [[_ _ Htot] Ht].
  { destruct Hout as [-> | [msg ->]]; [done |].
    destruct Hrun as [[? | [? _]] [? | ?]]; done. }
  rewrite Hinit in Ht. unfold tally in Ht. simpl in *.
  rewrite Htot.
  destruct (database_enabled self), (secondary_database_enabled self); lia.
Qed.

End ItemProperties.

(** *** Further properties of discovery and construction *)

Section DiscoveryProperties.
Context `{!PyLib}.

(** X14. Discovery is sound, and complete up to the case of Windows
    paths.  A work item is an entry of the source directory, a file, a
    directory or a symbolic link, whose name ends in [.ifc] or [.IFC] (for
    Windows paths: in [.ifc] whatever the case); every such entry is a
    work item, or, for Windows paths, has the key of one.  With POSIX
    paths a name ending in [.Ifc] is not found.  When the search returns,
    it returns the work items, and each of them is a file or a directory:
    a dangling link among them makes it raise instead. *)
Theorem discovery_sound_complete self s :
  (forall p, p ∈ work_items self s ->
             p ∈ entries s /\ p_parent p = source_dir self
             /\ ifc_name s (p_name p) = true)
  /\ (forall p, p ∈ entries s -> p_parent p = source_dir self ->
                ifc_name s (p_name p) = true ->
                exists q, q ∈ work_items self s
                          /\ path_key (st_casefold s) q
                             = path_key (st_casefold s) p)
  /\ (st_casefold s = false ->
      forall p, p ∈ work_items self s <->
                p ∈ entries s /\ p_parent p = source_dir self
                /\ (endswith (p_name p) ".ifc" || endswith (p_name p) ".IFC")
                   = true)
  /\ (forall l s', find_ifc_files self s = (inr l, s') ->
                   l = work_items self s /\ Forall (can_stat s) l)
  /\ (forall p, p ∈ work_items self s -> ~ can_stat s p ->
                exists s', find_ifc_files self s
                           = (inl (OSError "No such file or directory"), s')).
Proof.
  split_and!.
  - apply work_items_elem_of.
  - intros p Hin Hd Hn. apply sorted_set_complete.
    apply globbed_elem_of. by split_and!.
  - intros Hcf p. split.
    + intros Hp. apply work_items_elem_of in Hp as (? & ? & Hn).
      unfold ifc_name in Hn. rewrite Hcf in Hn. by split_and!.
    + intros (Hin & Hd & Hn).
      destruct (sorted_set_complete (st_casefold s)
                  (glob_list (source_dir self) ".ifc" s
                   ++ glob_list (source_dir self) ".IFC" s) p)
        as (q & Hq & Hk).
      { apply globbed_elem_of. unfold ifc_name. rewrite Hcf. by split_and!. }
      rewrite Hcf in Hk. simpl in Hk. subst q. exact Hq.
  - intros l s' Heq.
    pose proof (wp_run _ _ _ _ (find_ifc_files_spec self s)) as Hrun.
    rewrite Heq in Hrun. simpl in Hrun. by destruct Hrun as (_ & -> & ?).
  - intros p Hin Hno.
    pose proof (wp_run _ _ _ _ (find_ifc_files_spec self s)) as Hrun.
    destruct (find_ifc_files self s) as [[e | l] s']; simpl in Hrun.
    + destruct Hrun as (_ & -> & _). eauto.
    + destruct Hrun as (_ & -> & Hall). rewrite Forall_forall in Hall.
      by destruct Hno; apply Hall.
Qed.

End DiscoveryProperties.

(** *** Further properties of the backend *)






Ltac app_step :=
  first
    [ apply wp_subprocess_run; simpl;
      [ intros ? ?
      | intros ? Ht ? ?; first [discriminate Ht | injection Ht as <-]
      | intros ? ? ]
    | apply wp_unlink; [intros ? ? ? | intros ? ?]; simpl in *
    | wp_step ].





Ltac launch_close :=
  match goal with
  | Hsel : App.select_command _ _ _ _ = _ |- _ =>
      unfold tier_launch; rewrite Hsel; simpl
  end;
  unfold new_events; simpl; rewrite <- ?app_assoc, ?drop_app_length; simpl;
  split;
  [ repeat (apply List.Forall_cons; [first [by left | by right] |]);
    apply List.Forall_nil
  | lia ].

Lemma convert_ifc_launches FRAGMENTS_DIR CONVERTER_SCRIPT filename base_name
    temp_ifc_path s f :
  st_fs s !! Path temp_ifc_path = Some f ->
  let K s' :=
    Forall (tier_launch CONVERTER_SCRIPT temp_ifc_path
              (str_path (joinpath FRAGMENTS_DIR (base_name +:+ ".frag")))
              (len (f_data f)))
           (new_events s s')
    /\ (List.length (new_events s s') <= 3)%nat in
  wp (App.convert_ifc FRAGMENTS_DIR CONVERTER_SCRIPT filename base_name
        temp_ifc_path)
     (fun _ s' => K s') (fun _ s' => K s') s.
Proof.
  intros Hf K. unfold K, App.convert_ifc.
  wp_step. wp_step.
  eapply wp_stat_size_ok; [exact Hf |].
  repeat app_step.
  all: launch_close.
Qed.

(** X18. When the uploaded temporary file is missing, [convert_ifc]
    gives no answer and launches nothing.  Otherwise every child it
    launches is the version probe or the command of the tier selected by
    the size of the upload, with the timeout of that tier, and there are
    at most three launches. *)
Theorem convert_ifc_launch_discipline FRAGMENTS_DIR CONVERTER_SCRIPT filename
    base_name temp_ifc_path s :
  let run := App.convert_ifc FRAGMENTS_DIR CONVERTER_SCRIPT filename base_name
               temp_ifc_path s in
  match st_fs s !! Path temp_ifc_path with
  | None => run = (inr None, s)
  | Some f =>
      Forall (tier_launch CONVERTER_SCRIPT temp_ifc_path
                (str_path (joinpath FRAGMENTS_DIR (base_name +:+ ".frag")))
                (len (f_data f)))
             (new_events s run.2)
      /\ (List.length (new_events s run.2) <= 3)%nat
  end.
Proof.
  simpl. destruct (st_fs s !! Path temp_ifc_path) as [f |] eqn:Hf.
  - pose proof (wp_run _ _ _ _
                  (convert_ifc_launches FRAGMENTS_DIR CONVERTER_SCRIPT
                     filename base_name temp_ifc_path s f Hf)) as Hrun.
    by destruct (App.convert_ifc _ _ _ _ _ s) as [[e | resp] s'].
  - cbv [App.convert_ifc try_except bind stat_size exists_ gets ret].
    rewrite Hf. simpl. rewrite Hf.
    by rewrite bool_decide_eq_false_2 by (by intros [? ?]).
Qed.

(** *** Sample runs *)

#[local] Existing Instance sample_lib.

Lemma sample_wf primary secondary :
  wf_handlers (sample_converter primary secondary).
Proof. split; simpl; intros ->; eauto. Qed.


Lemma store_fragment_idempotent_witness :
  exists s',
    store_fragment (mkHandler "loc") (mkPath sample_dir "b.ifc") "b.ifc"
      (mkMeta 0 0 0 0 "" "" "" 0 None) stored_once = (inr true, s')
    /\ st_dbs s' = st_dbs stored_once.
Proof.
  destruct (store_fragment_idempotent (mkHandler "loc")
              (mkPath sample_dir "b.ifc") "b.ifc"
              (mkMeta 0 0 0 0 "" "" "" 0 None) stored_once
              (mkFile (b "ISO-10303-21;") true)
              (mkDb true [mkRow 1 "b.ifc" (content_hash (b "ISO-10303-21;")) (b "ISO-10303-21;") 13
                                "b.ifc" (mkMeta 0 0 0 0 "" "" "" 0 None)] 2)
              (mkRow 1 "b.ifc" (content_hash (b "ISO-10303-21;")) (b "ISO-10303-21;") 13
                     "b.ifc" (mkMeta 0 0 0 0 "" "" "" 0 None)))
    as (s' & Hrun & _ & Hdbs & _);
    [by vm_compute | reflexivity | by vm_compute | reflexivity
    | by apply list_elem_of_singleton | by vm_compute |].
  exists s'. by split.
Defined.

Lemma compression_ratio_guarded_witness :
  st_fs sample_state !! a_ifc = Some (mkFile [] true)
  /\ a_ifc <> a_frag
  /\ forall o, ratio_value (size_mb (len (@nil Byte.byte))) o = 0%Q.
Proof.
  assert (st_fs sample_state !! a_ifc = Some (mkFile [] true)) as Hfi
    by (by vm_compute).
  assert (a_ifc <> a_frag) as Hne by done.
  split; [exact Hfi |]. split; [exact Hne |].
  destruct (compression_ratio_guarded (sample_converter true true) a_ifc
              a_frag 0 0 sample_state (mkFile [] true) Hfi eq_refl Hne)
    as (_ & Hzero & _).
  exact Hzero.
Defined.


(** A run that discovers no item returns normally without writing a
    report and without logging a failed write. *)
Example run_without_report :
  let run :=
    convert_all_files (sample_converter true true) empty_source_state in
  run.1 = inr tt
  /\ st_trace run.2 = [LogNoFiles]
  /\ (map_to_list (st_fs run.2)).*1 = [mkPath sample_dir "notes.txt"]
  /\ results (st_stats run.2) = [].
Proof. vm_compute. by repeat split. Qed.

(** C2 on [XFRGSubprocessConverter.convert_ifc_file]: the worker exits
    with status 0 and leaves a zero-byte output file; the result says
    success, with file size 0. *)
Lemma empty_output_reported_as_success :
  let run :=
    XFRG.convert_ifc_file sample_xfrg "/data/F1_CO/a.ifc" "/out/a.frag" 600
      empty_output_state in
  st_fs run.2 !! Path "/out/a.frag" = Some (mkFile [] true)
  /\ match run.1 with
     | inr r => Some (r !! "success", r !! "file_size")
     | inl _ => None
     end = Some (Some (VBool true), Some (VInt 0)).
Proof. vm_compute. by repeat split. Qed.

(** The same worker behaviour under [convert_single_file]: the empty
    output is rejected and the item goes to the fallback. *)
Example empty_output_rejected_by_converter :
  let run :=
    convert_single_file
      (mkConverter "/opt" "/opt/logs" sample_dir "/out" "PJ" false None
                   false None "/pkg" (mkPath "/pkg" "c.py") "python")
      a_ifc empty_output_state in
  match run.1 with inr r => Some (r_status r) | inl _ => None end
  = Some "success"
  /\ List.filter
       (fun e => match e with
                 | LogConverted _ | LogConverterFailed _ _ => true
                 | _ => false
                 end) (st_trace run.2)
     = [LogConverterFailed "a.ifc"
          (Exception "Output file not created or is empty")].
Proof. vm_compute. by repeat split. Qed.

(** A failed primary store: the secondary store is skipped, the item is
    marked not attempted, and the secondary sink stays empty. *)
Example primary_failure_skips_secondary :
  let run :=
    convert_single_file (sample_converter true true)
      (mkPath sample_dir "b.ifc") primary_down_state in
  match run.1 with
  | inr r => Some (r_status r, r_db_stored r, r_db_stored_secondary r,
                   db_info_secondary (sample_converter true true) r)
  | inl _ => None
  end = Some ("success", false, false, MarkNotAttempted)
  /\ secondary_attempts (st_trace run.2) = 0%nat
  /\ db_rows <$> st_dbs run.2 !! "hub" = Some [].
Proof. vm_compute. by repeat split. Qed.

(** Every item failed and the primary sink is reachable but empty: the
    summary raises on the sum over no rows, before the report is
    written. *)
Example summary_fails_on_empty_sink :
  let run :=
    convert_all_files (sample_converter true false) unreadable_source_state
  in
  run.1 = inl (TypeError "unsupported operand type(s) for /")
  /\ r_status <$> results (st_stats run.2) = ["failed"]
  /\ (map_to_list (st_fs run.2)).*1 = [mkPath sample_dir "c.IFC"].
Proof. vm_compute. by repeat split. Qed.

(** On a file system that ignores case both patterns list every IFC
    file; the work items are still listed once each, in order. *)
Example duplicates_removed :
  let s := mkState sample_files {[sample_dir]} ∅ false true sample_dbs 0
                   failing_worker [] init_stats in
  p_name <$> (glob_list sample_dir ".ifc" s ++ glob_list sample_dir ".IFC" s)
  = ["c.IFC"; "a.ifc"; "b.ifc"; "c.IFC"; "a.ifc"; "b.ifc"]
  /\ p_name <$> discovered (sample_converter false false) s
     = ["a.ifc"; "b.ifc"; "c.IFC"].
Proof. vm_compute. by split. Qed.

(** [convert_ifc] of [app.py] decides like the subprocess converter: a
    zero exit status with a zero-byte output file is answered with
    success and status 200. *)
Example app_empty_output_reported_as_success :
  let s := mkState {[mkPath "/tmp" "upload.ifc" := mkFile (b "ISO;") true]}
                   {["/tmp"; "/out"]} ∅ false false sample_dbs 0
                   empty_output_worker [] init_stats in
  let run := App.convert_ifc "/out" "/srv/backend/ifc_converter.js"
               "a.ifc" "a" "/tmp/upload.ifc" s in
  st_fs run.2 !! mkPath "/out" "a.frag" = Some (mkFile [] true)
  /\ match run.1 with
     | inr (Some (body, status)) => Some (body !! "success", status)
     | _ => None
     end = Some (Some (VBool true), 200).
Proof. vm_compute. by split. Qed.

(** *** Sample runs of the further properties *)

Lemma run_eq {A} (m : Py A) s a : (m s).1 = inr a -> m s = (inr a, (m s).2).
Proof. destruct (m s) as [r s']. simpl. by intros ->. Qed.

Lemma sample_store_run :
  store_fragment (mkHandler "loc") b_ifc "b.ifc" meta0 sample_state
  = (inr true, stored_once).
Proof.
  exact (run_eq (store_fragment (mkHandler "loc") b_ifc "b.ifc" meta0)
           sample_state true ltac:(by vm_compute)).
Defined.

Lemma store_fragment_then_found_witness :
  store_fragment (mkHandler "loc") b_ifc "b.ifc" meta0 sample_state
  = (inr true, stored_once)
  /\ exists db' row, st_dbs stored_once !! "loc" = Some db'
                     /\ row ∈ db_rows db'.
Proof.
  split; [exact sample_store_run |].
  destruct (store_fragment_then_found (mkHandler "loc") b_ifc "b.ifc" meta0
              sample_state stored_once sample_store_run)
    as (f & db & db' & _ & _ & Hdb' & (row & Hin & _) & _).
  exists db', row. exact (conj Hdb' Hin).
Defined.

Lemma sample_hashes_unique : hashes_unique (st_dbs sample_state).
Proof.
  intros k db Hk. simpl in Hk. unfold sample_dbs in Hk. simpl in Hk.
  apply lookup_insert_Some in Hk as [[_ <-] | [_ Hk]]; [constructor |].
  apply lookup_insert_Some in Hk as [[_ <-] | [_ Hk]]; [constructor |].
  by rewrite lookup_empty in Hk.
Defined.

Lemma store_fragment_keeps_hashes_unique_witness :
  hashes_unique (st_dbs sample_state)
  /\ exists ok s',
      store_fragment (mkHandler "loc") b_ifc "b.ifc" meta0 sample_state
      = (inr ok, s')
      /\ hashes_unique (st_dbs s').
Proof.
  split; [exact sample_hashes_unique |].
  destruct (store_fragment_keeps_hashes_unique (mkHandler "loc") b_ifc "b.ifc"
              meta0 sample_state sample_hashes_unique)
    as (ok & s' & Heq & Hu & _).
  exists ok, s'. exact (conj Heq Hu).
Defined.

Lemma storage_stats_after_store_witness :
  store_fragment (mkHandler "loc") b_ifc "b.ifc" meta0 sample_state
  = (inr true, stored_once)
  /\ print_storage_stats (Some (mkHandler "loc")) stored_once
     = (inr tt, stored_once).
Proof.
  split; [exact sample_store_run |].
  destruct (storage_stats_after_store (mkHandler "loc") b_ifc "b.ifc" meta0
              sample_state stored_once sample_store_run)
    as (db' & total & _ & _ & _ & _ & Hprint).
  exact Hprint.
Defined.

Lemma print_summary_raises_on_empty_sink_witness :
  st_dbs sample_state !! "loc" = Some (mkDb true [] 1)
  /\ exists s',
      print_summary (sample_converter true false) sample_state
      = (inl (TypeError "unsupported operand type(s) for /"), s').
Proof.
  assert (st_dbs sample_state !! "loc" = Some (mkDb true [] 1)) as Hdb
    by (by vm_compute).
  split; [exact Hdb |].
  destruct (print_summary_raises_on_empty_sink (sample_converter true false)
              sample_state (mkHandler "loc") (mkDb true [] 1) eq_refl eq_refl
              Hdb eq_refl eq_refl) as (s' & Heq & _).
  exists s'. exact Heq.
Defined.



Lemma run_without_items_witness :
  exists s',
    run (sample_converter false false) ready_empty_state = (inr true, s')
    /\ discovered (sample_converter false false) ready_empty_state = []
    /\ st_fs s' = st_fs ready_empty_state.
Proof.
  pose proof (run_eq (run (sample_converter false false)) ready_empty_state
                true ltac:(by vm_compute)) as Hrun.
  assert (discovered (sample_converter false false) ready_empty_state = [])
    as Hnone by (by vm_compute).
  eexists. split; [exact Hrun |]. split; [exact Hnone |].
  destruct (run_without_items (sample_converter false false)
              ready_empty_state _ Hrun Hnone) as (_ & Hfs & _).
  exact Hfs.
Defined.




Lemma sample_all_files_run :
  (convert_all_files (sample_converter true true) sample_state).1 = inr tt.
Proof. vm_compute. reflexivity. Defined.

Lemma run_counters_consistent_witness :
  exists s',
    convert_all_files (sample_converter true true) sample_state
    = (inr tt, s')
    /\ successful (st_stats s') + failed (st_stats s')
       = total_files (st_stats s').
Proof.
  pose proof (run_eq _ _ _ sample_all_files_run) as Heq.
  eexists. split; [exact Heq |].
  pose proof (run_counters_consistent (sample_converter true true)
                sample_state _ _ (sample_wf true true) eq_refl Heq
                (or_introl eq_refl)) as Hall.
  cbv zeta in Hall. exact (proj1 (proj2 Hall)).
Defined.


(** *** Runs that part from the specification *)

(** C6. A placeholder of the fallback can be stored as a primary
    conversion.  Run 1 has no sink enabled and a failing worker: the
    fallback leaves the placeholder of [b.ifc] in the target directory.
    In run 2 the primary sink is enabled and the worker exits with status
    0 without writing anything: the placeholder is taken for the worker's
    output and stored with the converter version of a primary conversion
    and no note.  In run 3 the worker fails again: the fallback writes
    the same bytes, [store_fragment] finds their hash and answers [True],
    and the only row of the placeholder still says that the primary
    converter made it. *)
Lemma placeholder_stored_as_primary :
  let off := sample_converter false false in
  let on := sample_converter true false in
  let run1 := convert_single_file off b_ifc sample_state in
  let run2 :=
    convert_single_file on b_ifc (with_worker idle_worker run1.2) in
  let run3 :=
    convert_single_file on b_ifc (with_worker failing_worker run2.2) in
  let shown (r : exn + ConvResult) :=
    match r with
    | inr r => Some (r_status r, r_db_stored r)
    | inl _ => None
    end in
  let rows (s : State) :=
    match st_dbs s !! "loc" with
    | Some db =>
        (fun r => (filename r, fragment_data r,
                   converter_version (conversion_metadata r),
                   note (conversion_metadata r))) <$> db_rows db
    | None => []
    end in
  let logged (s0 s1 : State) :=
    List.filter
      (fun e => match e with
                | LogConverted _ | LogMockCompleted _ | LogStored _ _
                | LogAlreadyExists _ => true
                | _ => false
                end) (new_events s0 s1) in
  let placeholder := mock_fragment_data (b "ISO-10303-21;") in
  (f_data <$> st_fs run1.2 !! b_frag = Some placeholder
   /\ shown run1.1 = Some ("success", false))
  /\ (shown run2.1 = Some ("success", true)
      /\ logged run1.2 run2.2 = [LogConverted "b.ifc"; LogStored "b.frag" 1]
      /\ rows run2.2
         = [("b.frag", placeholder, "portable_ifc_fragments_converter",
             None)])
  /\ (shown run3.1 = Some ("success", true)
      /\ logged run2.2 run3.2
         = [LogMockCompleted "b.ifc"; LogAlreadyExists "b.frag"]
      /\ rows run3.2
         = [("b.frag", placeholder, "portable_ifc_fragments_converter",
             None)]).
Proof. vm_compute. by repeat split. Qed.

(** C7. A run in which every item failed saves no report.  The
    environment is valid, the primary sink is enabled and reachable, and
    the only IFC file cannot be read: worker and fallback fail, nothing is
    stored, and the summary divides the sum over the empty table, [None],
    by [1024 * 1024].  The [TypeError] leaves [convert_all_files] before
    [save_report] is called; [run] answers [False].  The result record is
    there, but no report was written and no failed write was logged. *)
Lemma all_failed_run_saves_no_report :
  let all :=
    convert_all_files (sample_converter true false) all_failed_state in
  let r := run (sample_converter true false) all_failed_state in
  all.1 = inl (TypeError "unsupported operand type(s) for /")
  /\ r.1 = inr false
  /\ r_status <$> results (st_stats r.2) = ["failed"]
  /\ (successful (st_stats r.2), failed (st_stats r.2),
      total_files (st_stats r.2)) = (0, 1, 1)
  /\ (map_to_list (st_fs r.2)).*1 = (map_to_list (st_fs all_failed_state)).*1
  /\ List.filter
       (fun e => match e with
                 | LogReportSaved _ | LogCouldNotSaveReport _ => true
                 | _ => false
                 end) (st_trace r.2) = [].
Proof. vm_compute. by repeat split. Qed.


